(** * A shallow embedding of the Lox tree-walking interpreter

    The development follows the three source modules of the interpreter:
    [lox/ast.py] (syntax tree, evaluation and static self-validation),
    [lox/runtime.py] (object model, operator library, textual rendering) and
    [lox/transformer.py] (which operator function each syntactic form is
    bound to).  Numbers are IEEE 754 binary64 values, modelled by the
    [spec_float] type of the standard library at precision 53. *)

From Stdlib Require Import ZArith String Ascii List Bool Lia.
From Stdlib Require Import Floats.SpecFloat.
From stdpp Require Import base option list strings gmap pretty.

Set Warnings "-register-all".

Local Open Scope string_scope.
Local Open Scope Z_scope.

(** ** Host numbers: binary64 floats and unbounded integers *)

Module Float64.

Definition prec : Z := 53.
Definition emax : Z := 1024.

Definition t := spec_float.

Definition nan : t := S754_nan.
Definition inf : t := S754_infinity false.
Definition zero : t := S754_zero false.
Definition neg_zero : t := S754_zero true.

Definition valid (x : t) : bool := valid_binary prec emax x.

Definition add : t -> t -> t := SFadd prec emax.
Definition sub : t -> t -> t := SFsub prec emax.
Definition mul : t -> t -> t := SFmul prec emax.
Definition div : t -> t -> t := SFdiv prec emax.
Definition opp : t -> t := SFopp.
Definition eqb : t -> t -> bool := SFeqb.

Definition is_finite (x : t) : bool :=
  match x with
  | S754_zero _ | S754_finite _ _ _ => true
  | _ => false
  end.

(** [float(n)] for a host integer [n]: round to nearest even; the host
    refuses integers beyond the largest finite double. *)
Definition of_Z (n : Z) : option t :=
  let x := binary_normalize prec emax n 0 false in
  if is_finite x then Some x else None.

(** The correctly rounded quotient of two integers, [n / d] with [d <> 0],
    as computed by the host's true division on integers. *)
Definition div_Z (n d : Z) : option t :=
  match n with
  | Z0 => Some (S754_zero (d <? 0))
  | _ =>
    let s := xorb (n <? 0) (d <? 0) in
    let '(q, e, l) := SFdiv_core_binary prec emax (Z.abs n) 0 (Z.abs d) 0 in
    let x := binary_round_aux prec emax s q e l in
    if is_finite x then Some x else None
  end.

(** The value [D * 10^k] rounded to the nearest double: the meaning of a
    decimal numeral. *)
Definition of_decimal (D : Z) (k : Z) : t :=
  match D with
  | Z0 => zero
  | _ =>
    if 0 <=? k then binary_normalize prec emax (D * 10 ^ k) 0 false
    else
      let '(q, e, l) :=
        SFdiv_core_binary prec emax (Z.abs D) 0 (10 ^ (- k)) 0 in
      binary_round_aux prec emax (D <? 0) q e l
  end.

(** [x.is_integer()] *)
Definition is_integer (x : t) : bool :=
  match x with
  | S754_zero _ => true
  | S754_finite _ m e =>
    if 0 <=? e then true else (Z.pos m mod 2 ^ (- e) =? 0)
  | _ => false
  end.

(** [int(x)]: truncation toward zero; the host raises on infinities and
    NaN. *)
Definition to_Z (x : t) : option Z :=
  match x with
  | S754_zero _ => Some 0
  | S754_finite s m e =>
    let a := if 0 <=? e then Z.pos m * 2 ^ e else Z.pos m / 2 ^ (- e) in
    Some (if s then - a else a)
  | _ => None
  end.

(** Exact three-way comparison of a host integer with a double, as the
    host performs it for mixed operands ([None] when unordered). *)
Definition compare_Z (n : Z) (x : t) : option comparison :=
  match x with
  | S754_nan => None
  | S754_infinity s => Some (if s then Gt else Lt)
  | S754_zero _ => Some (n ?= 0)
  | S754_finite s m e =>
    let v := if s then Z.neg m else Z.pos m in
    Some (if 0 <=? e then n ?= v * 2 ^ e else n * 2 ^ (- e) ?= v)
  end.

(** *** Shortest round-trip rendering: the host's [str] on doubles *)

(** The magnitude of a finite double as an exact fraction [num / den]. *)
Definition magnitude (m : positive) (e : Z) : Z * Z :=
  if 0 <=? e then (Z.pos m * 2 ^ e, 1) else (Z.pos m, 2 ^ (- e)).

(** Least [j] below the fuel with [num * 10^j >= den]. *)
Fixpoint scale_up (fuel : nat) (num den : Z) (j : Z) : Z :=
  match fuel with
  | O => j
  | S fuel' =>
    if den <=? num then j else scale_up fuel' (num * 10) den (j + 1)
  end.

(** The decimal point position [p] of a positive fraction:
    [10^(p-1) <= num/den < 10^p]. *)
Definition decimal_point (num den : Z) : Z :=
  if den <=? num
  then Z.of_nat (String.length (pretty (num / den)))
  else 1 - scale_up 400 num den 0.

(** Quotient and remainder of [num/den] scaled by [10^(-k)]. *)
Definition scaled_div (num den k : Z) : Z * Z * Z :=
  let n' := if 0 <=? k then num else num * 10 ^ (- k) in
  let d' := if 0 <=? k then den * 10 ^ k else den in
  (n' / d', n' mod d', d').

(** Does the decimal [D * 10^k] read back as the double [x]? *)
Definition reads_back (x : t) (D k : Z) : bool :=
  (0 <? D) && SFeqb (of_decimal D k) x.

(** The [n]-digit candidate for [x = num/den]: of the neighbouring
    decimals below and above, one that reads back, the nearer when both
    do, and the even one when they are equally near. *)
Definition candidate (x : t) (num den p : Z) (n : Z) : option (Z * Z) :=
  let k := p - n in
  let '(q, r, d) := scaled_div num den k in
  let lo := reads_back x q k in
  let hi := negb (r =? 0) && reads_back x (q + 1) k in
  let nearer_lo := (2 * r <? d) || ((2 * r =? d) && Z.even q) in
  if lo && (nearer_lo || negb hi) then Some (q, k)
  else if hi then Some (q + 1, k)
  else None.

Fixpoint shortest (fuel : nat) (x : t) (num den p : Z) (n : Z)
  : Z * Z :=
  match fuel with
  | O => let '(q, _, _) := scaled_div num den (p - n) in (q, p - n)
  | S fuel' =>
    match candidate x num den p n with
    | Some c => c
    | None => shortest fuel' x num den p (n + 1)
    end
  end.

Fixpoint strip_zeros (l : list ascii) : list ascii :=
  match l with
  | "0"%char :: l' => strip_zeros l'
  | _ => l
  end.

(** Digit string without trailing zeros, and the decimal point position
    relative to its start. *)
Definition digits_of (D k : Z) : list ascii * Z :=
  let ds := list_ascii_of_string (pretty D) in
  (rev (strip_zeros (rev ds)), k + Z.of_nat (length ds)).

Definition zeros (n : Z) : string :=
  string_of_list_ascii (repeat "0"%char (Z.to_nat n)).

Definition exponent_text (e : Z) : string :=
  let a := pretty (Z.abs e) in
  (if e <? 0 then "-" else "+") ++
  (if Z.abs e <? 10 then "0" ++ a else a).

(** The host's layout of a digit string in repr style: scientific
    notation when [decpt <= -4] or [decpt > 16], positional otherwise,
    always showing a fractional part in positional notation. *)
Definition layout (ds : list ascii) (decpt : Z) : string :=
  let nd := Z.of_nat (length ds) in
  if (decpt <=? -4) || (16 <? decpt) then
    match ds with
    | [] => EmptyString
    | d :: rest =>
      String d (match rest with
                | [] => EmptyString
                | _ => "." ++ string_of_list_ascii rest
                end) ++ "e" ++ exponent_text (decpt - 1)
    end
  else if decpt <=? 0 then
    "0." ++ zeros (- decpt) ++ string_of_list_ascii ds
  else if decpt <? nd then
    string_of_list_ascii (take (Z.to_nat decpt) ds) ++ "." ++
    string_of_list_ascii (drop (Z.to_nat decpt) ds)
  else
    string_of_list_ascii ds ++ zeros (decpt - nd) ++ ".0".

(** [str(x)] for a double [x]. *)
Definition str (x : t) : string :=
  match x with
  | S754_nan => "nan"
  | S754_infinity s => if s then "-inf" else "inf"
  | S754_zero s => if s then "-0.0" else "0.0"
  | S754_finite s m e =>
    let '(num, den) := magnitude m e in
    let p := decimal_point num den in
    let '(D, k) := shortest 17 (SFabs x) num den p 1 in
    let '(ds, decpt) := digits_of D k in
    (if s then "-" else EmptyString) ++ layout ds decpt
  end.

End Float64.

(** ** Syntax trees ([lox/ast.py]) *)

Module Ast.

(** [Value = bool | str | float | None]: what a [Literal] node stores. *)
Inductive lit :=
| LNil
| LBool (b : bool)
| LNum (x : Float64.t)
| LStr (s : string).

(** The operator function a [BinOp] or [UnaryOp] node is bound to by the
    transformer ([op_handler(op.mul)], [UnaryOp(expr, op.neg)], ...). *)
Inductive binop :=
| OpMul | OpTruediv | OpSub | OpAdd
| OpGt | OpLt | OpGe | OpLe | OpEq | OpNe.

Inductive unop := OpNeg | OpNot.

Inductive Expr :=
| BinOp (left right : Expr) (op : binop)
| Var (name : string)
| Literal (value : lit)
| And (left right : Expr)
| Or (left right : Expr)
| UnaryOp (expr : Expr) (op : unop)
| Call (func : Expr) (params : list Expr)
| This
| Super (method_name : string)
| Assign (name : string) (value : Expr)
| Getattr (value : Expr) (attr : string)
| Setattr (value : Expr) (attr : string) (expr : Expr).

(** Statements.  [ExprStmt e] is an expression standing where a statement
    is expected (an expression statement, the increment of a desugared
    [for]); it is the expression node itself, not a node of its own. *)
Inductive Stmt :=
| ExprStmt (e : Expr)
| Print (expr : Expr)
| Return (value : option Expr)
| VarDef (name : string) (value : Expr)
| If (condition : Expr) (then_stmt : Stmt) (else_stmt : option Stmt)
| While (condition : Expr) (body : Stmt)
| Block (stmts : list Stmt)
| Function (name : string) (params : list string) (body : Stmt)
| Class (name : string) (methods : list Stmt) (superclass : option string).

Inductive Program := MkProgram (stmts : list Stmt).

Definition binop_eqb (a b : binop) : bool :=
  match a, b with
  | OpMul, OpMul | OpTruediv, OpTruediv | OpSub, OpSub | OpAdd, OpAdd
  | OpGt, OpGt | OpLt, OpLt | OpGe, OpGe | OpLe, OpLe
  | OpEq, OpEq | OpNe, OpNe => true
  | _, _ => false
  end.

Definition unop_eqb (a b : unop) : bool :=
  match a, b with
  | OpNeg, OpNeg | OpNot, OpNot => true
  | _, _ => false
  end.

(** Host [==] on literal payloads: a boolean equals the number 1 or 0. *)
Definition lit_eqb (a b : lit) : bool :=
  match a, b with
  | LNil, LNil => true
  | LBool x, LBool y => Bool.eqb x y
  | LNum x, LNum y => Float64.eqb x y
  | LBool x, LNum y | LNum y, LBool x =>
    Float64.eqb y (if x then Float64.of_decimal 1 0 else Float64.zero)
  | LStr x, LStr y => String.eqb x y
  | _, _ => false
  end.

Definition option_eqb {A} (f : A -> A -> bool) (a b : option A) : bool :=
  match a, b with
  | None, None => true
  | Some x, Some y => f x y
  | _, _ => false
  end.

Fixpoint list_eqb {A} (f : A -> A -> bool) (a b : list A) : bool :=
  match a, b with
  | [], [] => true
  | x :: a', y :: b' => f x y && list_eqb f a' b'
  | _, _ => false
  end.

(** The field-wise [__eq__] that [@dataclass] generates for each node
    class: same class, then equal field tuples. *)
Fixpoint Expr_eqb (a b : Expr) {struct a} : bool :=
  match a, b with
  | BinOp l1 r1 o1, BinOp l2 r2 o2 =>
    Expr_eqb l1 l2 && Expr_eqb r1 r2 && binop_eqb o1 o2
  | Var n1, Var n2 => String.eqb n1 n2
  | Literal v1, Literal v2 => lit_eqb v1 v2
  | And l1 r1, And l2 r2 => Expr_eqb l1 l2 && Expr_eqb r1 r2
  | Or l1 r1, Or l2 r2 => Expr_eqb l1 l2 && Expr_eqb r1 r2
  | UnaryOp e1 o1, UnaryOp e2 o2 => Expr_eqb e1 e2 && unop_eqb o1 o2
  | Call f1 p1, Call f2 p2 =>
    Expr_eqb f1 f2 &&
    (fix go (p q : list Expr) : bool :=
       match p, q with
       | [], [] => true
       | x :: p', y :: q' => Expr_eqb x y && go p' q'
       | _, _ => false
       end) p1 p2
  | This, This => true
  | Super m1, Super m2 => String.eqb m1 m2
  | Assign n1 v1, Assign n2 v2 => String.eqb n1 n2 && Expr_eqb v1 v2
  | Getattr v1 a1, Getattr v2 a2 => Expr_eqb v1 v2 && String.eqb a1 a2
  | Setattr v1 a1 e1, Setattr v2 a2 e2 =>
    Expr_eqb v1 v2 && String.eqb a1 a2 && Expr_eqb e1 e2
  | _, _ => false
  end.

Fixpoint Stmt_eqb (a b : Stmt) {struct a} : bool :=
  let go :=
    fix go (p q : list Stmt) : bool :=
      match p, q with
      | [], [] => true
      | x :: p', y :: q' => Stmt_eqb x y && go p' q'
      | _, _ => false
      end in
  match a, b with
  | ExprStmt e1, ExprStmt e2 => Expr_eqb e1 e2
  | Print e1, Print e2 => Expr_eqb e1 e2
  | Return v1, Return v2 => option_eqb Expr_eqb v1 v2
  | VarDef n1 v1, VarDef n2 v2 => String.eqb n1 n2 && Expr_eqb v1 v2
  | If c1 t1 e1, If c2 t2 e2 =>
    Expr_eqb c1 c2 && Stmt_eqb t1 t2 &&
    match e1, e2 with
    | None, None => true
    | Some x, Some y => Stmt_eqb x y
    | _, _ => false
    end
  | While c1 b1, While c2 b2 => Expr_eqb c1 c2 && Stmt_eqb b1 b2
  | Block s1, Block s2 => go s1 s2
  | Function n1 p1 b1, Function n2 p2 b2 =>
    String.eqb n1 n2 && list_eqb String.eqb p1 p2 && Stmt_eqb b1 b2
  | Class n1 m1 s1, Class n2 m2 s2 =>
    String.eqb n1 n2 && go m1 m2 && option_eqb String.eqb s1 s2
  | _, _ => false
  end.

End Ast.

(** ** Runtime object model and operator library ([lox/runtime.py]) *)

Module Runtime.
Import Ast.

(** Modelled from the spec: the environment class [Ctx] of [lox/ctx.py],
    which is not part of the sources at hand.  An environment is the
    ordered chain of its scope frames, innermost first; a frame is named
    by its address in the store, so that closures sharing a frame observe
    each other's definitions and assignments. *)
Definition Ctx := list nat.

Record LoxFunction := mkLoxFunction {
  fn_name : string;
  fn_params : list string;
  fn_body : Stmt;
  fn_ctx : Ctx
}.

Inductive LoxClass :=
| mkLoxClass (name : string) (methods : gmap string LoxFunction)
             (base : option LoxClass).

Definition cls_name (c : LoxClass) : string :=
  let 'mkLoxClass n _ _ := c in n.
Definition cls_methods (c : LoxClass) : gmap string LoxFunction :=
  let 'mkLoxClass _ m _ := c in m.
Definition cls_base (c : LoxClass) : option LoxClass :=
  let 'mkLoxClass _ _ b := c in b.

(** A [LoxInstance] object: its identity (the address of its attribute
    dictionary in the store) and the class it was constructed from. *)
Record LoxInstance := mkLoxInstance {
  inst_id : nat;
  inst_class : LoxClass
}.

(** Runtime values.  [VInt] is the host integer: no literal denotes one,
    but [operator.neg] applied to a boolean produces one.  A bound method
    and the [init_wrapper] closure are host objects compared by identity,
    so each carries the serial number of its creation. *)
Inductive Value :=
| VNil
| VBool (b : bool)
| VNum (x : Float64.t)
| VInt (n : Z)
| VStr (s : string)
| VFunction (f : LoxFunction)
| VClass (c : LoxClass)
| VInstance (i : LoxInstance)
| VBoundMethod (id : nat) (instance : LoxInstance) (method : LoxFunction)
| VInitWrapper (id : nat) (instance : LoxInstance)
               (init_method : LoxFunction).

Definition value_of_lit (l : lit) : Value :=
  match l with
  | LNil => VNil
  | LBool b => VBool b
  | LNum x => VNum x
  | LStr s => VStr s
  end.

(** Exceptions: the interpreter's own ([LoxError], [SemanticError], the
    [LoxReturn] control signal) and the host's.  A semantic error carries
    a message and, when the raising site supplies one, the offending token
    ([lox/errors.py] is not among the sources; the evaluator constructs it
    from a message alone).

    The last two constructors are no exceptions of the program.
    [OutOfFuel] stands for a computation that exceeds the step budget of
    the model.  [HostAttribute] marks the point where evaluation hands an
    attribute name to the host's own attribute protocol: [Getattr.eval]
    and [Setattr.eval] pass any name to the host's [getattr] and
    [setattr], and on an object that is not an instance, or under a name
    that the host itself defines on instances, the answer is a host object
    (a field or a method of the interpreter's own data structures) or a
    host error.  What the program does from there on is not described: the
    evaluation stops with [HostAttribute], which no handler catches, and
    properties of whole evaluations are stated for runs that do not end
    there. *)
Inductive Exn :=
| LoxError (msg : string)
| SemanticError (msg : string) (token : option string)
| NameError (msg : string)
| TypeError (msg : string)
| RuntimeError (msg : string)
| AttributeError (msg : string)
| KeyError (key : string)
| OverflowError (msg : string)
| LoxReturn (value : Value)
| HostAttribute (attr : string)
| OutOfFuel.

Inductive Result (A : Type) :=
| Ok (a : A)
| Raise (e : Exn).
Arguments Ok {A} a.
Arguments Raise {A} e.

(** *** Classes *)

Fixpoint get_method (c : LoxClass) (name : string) : Result LoxFunction :=
  match c with
  | mkLoxClass _ methods base =>
    match methods !! name with
    | Some f => Ok f
    | None =>
      match base with
      | Some b => get_method b name
      | None => Raise (LoxError ("Undefined method '" ++ name ++ "'."))
      end
    end
  end.

(** *** Host types and host equality *)

Inductive pytype :=
| TNoneType | TBool | TFloat | TInt | TStr
| TLoxFunction | TLoxClass | TLoxInstance | TLoxBoundMethod | TFunction.

Definition type (v : Value) : pytype :=
  match v with
  | VNil => TNoneType
  | VBool _ => TBool
  | VNum _ => TFloat
  | VInt _ => TInt
  | VStr _ => TStr
  | VFunction _ => TLoxFunction
  | VClass _ => TLoxClass
  | VInstance _ => TLoxInstance
  | VBoundMethod _ _ _ => TLoxBoundMethod
  | VInitWrapper _ _ _ => TFunction
  end.

Definition pytype_eqb (a b : pytype) : bool :=
  match a, b with
  | TNoneType, TNoneType | TBool, TBool | TFloat, TFloat | TInt, TInt
  | TStr, TStr | TLoxFunction, TLoxFunction | TLoxClass, TLoxClass
  | TLoxInstance, TLoxInstance | TLoxBoundMethod, TLoxBoundMethod
  | TFunction, TFunction => true
  | _, _ => false
  end.

Definition type_name (t : pytype) : string :=
  match t with
  | TNoneType => "NoneType"
  | TBool => "bool"
  | TFloat => "float"
  | TInt => "int"
  | TStr => "str"
  | TLoxFunction => "LoxFunction"
  | TLoxClass => "LoxClass"
  | TLoxInstance => "LoxInstance"
  | TLoxBoundMethod => "LoxBoundMethod"
  | TFunction => "function"
  end.

(** [@dataclass] equality of two [LoxFunction]s: name, parameters, body
    and closure environment, field by field.  Two environments are taken
    to be equal when they are the same chain of frames. *)
Definition LoxFunction_eqb (f g : LoxFunction) : bool :=
  String.eqb (fn_name f) (fn_name g) &&
  list_eqb String.eqb (fn_params f) (fn_params g) &&
  Stmt_eqb (fn_body f) (fn_body g) &&
  list_eqb Nat.eqb (fn_ctx f) (fn_ctx g).

(** Equality of method dictionaries: same keys, equal values. *)
Definition methods_eqb (m1 m2 : gmap string LoxFunction) : bool :=
  list_eqb (fun p q => String.eqb (fst p) (fst q) &&
                       LoxFunction_eqb (snd p) (snd q))
           (map_to_list m1) (map_to_list m2).

(** [@dataclass] equality of two [LoxClass]es. *)
Fixpoint LoxClass_eqb (c d : LoxClass) {struct c} : bool :=
  match c, d with
  | mkLoxClass n1 m1 b1, mkLoxClass n2 m2 b2 =>
    String.eqb n1 n2 && methods_eqb m1 m2 &&
    match b1, b2 with
    | None, None => true
    | Some x, Some y => LoxClass_eqb x y
    | _, _ => false
    end
  end.

(** Host [left == right] for two values of the same host type.
    [LoxInstance] is declared [@dataclass] without any field, so the
    generated [__eq__] compares two empty tuples; [LoxBoundMethod] defines
    [__eq__] as identity; host functions compare by identity. *)
Definition py_eq (left right : Value) : bool :=
  match left, right with
  | VNil, VNil => true
  | VBool a, VBool b => Bool.eqb a b
  | VNum a, VNum b => Float64.eqb a b
  | VInt a, VInt b => Z.eqb a b
  | VStr a, VStr b => String.eqb a b
  | VFunction f, VFunction g => LoxFunction_eqb f g
  | VClass c, VClass d => LoxClass_eqb c d
  | VInstance _, VInstance _ => true
  | VBoundMethod i _ _, VBoundMethod j _ _ => Nat.eqb i j
  | VInitWrapper i _ _, VInitWrapper j _ _ => Nat.eqb i j
  | _, _ => false
  end.

(** *** Rendering and truthiness *)

Definition show (value : Value) : string :=
  match value with
  | VNil => "nil"
  | VBool true => "true"
  | VBool false => "false"
  | VStr s => s
  | VNum x =>
    if Float64.eqb x Float64.zero && String.eqb (Float64.str x) "-0.0"
    then "-0"
    else if Float64.is_integer x
    then match Float64.to_Z x with
         | Some n => pretty n
         | None => Float64.str x
         end
    else Float64.str x
  | VClass c => cls_name c
  | VInstance i => cls_name (inst_class i) ++ " instance"
  | VBoundMethod _ _ m => "<fn " ++ fn_name m ++ ">"
  | VFunction f => "<fn " ++ fn_name f ++ ">"
  | VInitWrapper _ _ _ => "<native fn>"
  | VInt _ => "int instance"
  end.

Definition dquote : ascii := "034"%char.

Definition show_repr (value : Value) : string :=
  match value with
  | VStr s => String dquote (s ++ String dquote EmptyString)
  | _ => show value
  end.

Definition truthy (value : Value) : bool :=
  match value with
  | VNil | VBool false => false
  | _ => true
  end.

(** *** Host arithmetic on numbers

    [isinstance(v, (int, float))] holds of doubles, of host integers and,
    since the host's [bool] is a subclass of [int], of booleans; the
    operators below therefore test for booleans first. *)

Inductive num := NInt (n : Z) | NFloat (x : Float64.t).

Definition isinstance_bool (v : Value) : bool :=
  match v with VBool _ => true | _ => false end.

Definition as_num (v : Value) : option num :=
  match v with
  | VBool b => Some (NInt (if b then 1 else 0))
  | VInt n => Some (NInt n)
  | VNum x => Some (NFloat x)
  | _ => None
  end.

Definition value_of_num (a : num) : Value :=
  match a with NInt n => VInt n | NFloat x => VNum x end.

Definition float_of_int (n : Z) : Result Float64.t :=
  match Float64.of_Z n with
  | Some x => Ok x
  | None => Raise (OverflowError "int too large to convert to float")
  end.

(** [a (op) b] for [+], [-], [*]: exact on two integers, otherwise both
    operands as doubles. *)
Definition host_arith (fz : Z -> Z -> Z)
           (ff : Float64.t -> Float64.t -> Float64.t) (a b : num)
  : Result Value :=
  match a, b with
  | NInt m, NInt n => Ok (VInt (fz m n))
  | NFloat x, NFloat y => Ok (VNum (ff x y))
  | NInt m, NFloat y =>
    match float_of_int m with
    | Ok x => Ok (VNum (ff x y))
    | Raise e => Raise e
    end
  | NFloat x, NInt n =>
    match float_of_int n with
    | Ok y => Ok (VNum (ff x y))
    | Raise e => Raise e
    end
  end.

(** [b != 0] *)
Definition host_nonzero (b : num) : bool :=
  match b with
  | NInt n => negb (n =? 0)
  | NFloat y => negb (Float64.eqb y Float64.zero)
  end.

(** [a / b] for a divisor that is not zero. *)
Definition host_truediv (a b : num) : Result Value :=
  match a, b with
  | NInt m, NInt n =>
    match Float64.div_Z m n with
    | Some x => Ok (VNum x)
    | None =>
      Raise (OverflowError "integer division result too large for a float")
    end
  | NFloat x, NFloat y => Ok (VNum (Float64.div x y))
  | NInt m, NFloat y =>
    match float_of_int m with
    | Ok x => Ok (VNum (Float64.div x y))
    | Raise e => Raise e
    end
  | NFloat x, NInt n =>
    match float_of_int n with
    | Ok y => Ok (VNum (Float64.div x y))
    | Raise e => Raise e
    end
  end.

(** Exact ordering of two host numbers; [None] when a NaN is involved. *)
Definition host_compare (a b : num) : option comparison :=
  match a, b with
  | NInt m, NInt n => Some (m ?= n)
  | NInt m, NFloat y => Float64.compare_Z m y
  | NFloat x, NInt n => option_map CompOpp (Float64.compare_Z n x)
  | NFloat x, NFloat y => SFcompare x y
  end.

(** *** The operator library *)

Definition numbers_or_strings : Exn :=
  LoxError "Operands must be two numbers or two strings.".
Definition must_be_numbers : Exn :=
  LoxError "Operands must be numbers.".

Definition add (left right : Value) : Result Value :=
  if isinstance_bool left || isinstance_bool right
  then Raise numbers_or_strings
  else
    match left, right with
    | VStr a, VStr b => Ok (VStr (a ++ b))
    | _, _ =>
      match as_num left, as_num right with
      | Some a, Some b => host_arith Z.add Float64.add a b
      | _, _ => Raise numbers_or_strings
      end
    end.

Definition sub (left right : Value) : Result Value :=
  if isinstance_bool left || isinstance_bool right
  then Raise must_be_numbers
  else
    match as_num left, as_num right with
    | Some a, Some b => host_arith Z.sub Float64.sub a b
    | _, _ => Raise must_be_numbers
    end.

Definition mul (left right : Value) : Result Value :=
  if isinstance_bool left || isinstance_bool right
  then Raise must_be_numbers
  else
    match as_num left, as_num right with
    | Some a, Some b => host_arith Z.mul Float64.mul a b
    | _, _ => Raise must_be_numbers
    end.

Definition truediv (left right : Value) : Result Value :=
  if isinstance_bool left || isinstance_bool right
  then Raise must_be_numbers
  else
    match as_num left, as_num right with
    | Some a, Some b =>
      if host_nonzero b then host_truediv a b else Ok (VNum Float64.nan)
    | _, _ => Raise must_be_numbers
    end.

Definition relational (test : option comparison -> bool)
           (left right : Value) : Result bool :=
  if isinstance_bool left || isinstance_bool right
  then Raise must_be_numbers
  else
    match as_num left, as_num right with
    | Some a, Some b => Ok (test (host_compare a b))
    | _, _ => Raise must_be_numbers
    end.

Definition gt : Value -> Value -> Result bool :=
  relational (fun c => match c with Some Gt => true | _ => false end).
Definition ge : Value -> Value -> Result bool :=
  relational (fun c => match c with Some (Gt | Eq) => true | _ => false end).
Definition lt : Value -> Value -> Result bool :=
  relational (fun c => match c with Some Lt => true | _ => false end).
Definition le : Value -> Value -> Result bool :=
  relational (fun c => match c with Some (Lt | Eq) => true | _ => false end).

Definition eq (left right : Value) : bool :=
  if negb (pytype_eqb (type left) (type right)) then false
  else py_eq left right.

Definition ne (left right : Value) : bool := negb (eq left right).

Definition not_ (value : Value) : bool := negb (truthy value).

(** [neg] is the host's [operator.neg], imported as it is: the host's
    unary minus, defined on doubles and on integers (booleans included)
    and a [TypeError] on anything else. *)
Definition neg (value : Value) : Result Value :=
  match value with
  | VNum x => Ok (VNum (Float64.opp x))
  | VInt n => Ok (VInt (- n))
  | VBool b => Ok (VInt (- (if b then 1 else 0)))
  | _ =>
    Raise (TypeError ("bad operand type for unary -: '" ++
                      type_name (type value) ++ "'"))
  end.

Definition of_bool (r : Result bool) : Result Value :=
  match r with Ok b => Ok (VBool b) | Raise e => Raise e end.

(** The function a node's [op] field holds, applied. *)
Definition apply_binop (op : binop) (l r : Value) : Result Value :=
  match op with
  | OpMul => mul l r
  | OpTruediv => truediv l r
  | OpSub => sub l r
  | OpAdd => add l r
  | OpGt => of_bool (gt l r)
  | OpLt => of_bool (lt l r)
  | OpGe => of_bool (ge l r)
  | OpLe => of_bool (le l r)
  | OpEq => Ok (VBool (eq l r))
  | OpNe => Ok (VBool (ne l r))
  end.

Definition apply_unop (op : unop) (v : Value) : Result Value :=
  match op with
  | OpNeg => neg v
  | OpNot => Ok (VBool (not_ v))
  end.

End Runtime.

(** ** The store and the evaluation monad *)

Module Store.
Import Ast Runtime.

(** The mutable objects a program can reach: scope frames and the
    attribute dictionaries of instances, each a host dictionary named by
    its address; the number of bound-method and wrapper objects created so
    far; and the lines written to standard output. *)
Record State := mkState {
  frames : list (gmap string Value);
  objects : list (gmap string Value);
  serial : nat;
  output : list string
}.

(** A computation may change the store and then either return or raise:
    the changes made before an exception stay in place. *)
Definition M (A : Type) : Type := State -> Result A * State.

Definition ret {A} (a : A) : M A := fun s => (Ok a, s).

Definition bind {A B} (m : M A) (k : A -> M B) : M B :=
  fun s =>
    match m s with
    | (Ok a, s') => k a s'
    | (Raise e, s') => (Raise e, s')
    end.

Definition raise {A} (e : Exn) : M A := fun s => (Raise e, s).

Definition lift {A} (r : Result A) : M A := fun s => (r, s).

(** [try: body except E: handler], for the exceptions [E] selected by
    [catches]. *)
Definition try_except {A} (body : M A) (catches : Exn -> bool)
           (handler : Exn -> M A) : M A :=
  fun s =>
    match body s with
    | (Raise e, s') => if catches e then handler e s' else (Raise e, s')
    | r => r
    end.

Definition is_LoxError (e : Exn) : bool :=
  match e with LoxError _ => true | _ => false end.
Definition is_KeyError (e : Exn) : bool :=
  match e with KeyError _ => true | _ => false end.
Definition is_LoxReturn (e : Exn) : bool :=
  match e with LoxReturn _ => true | _ => false end.

Notation "'let*' x ':=' m 'in' k" := (bind m (fun x => k))
  (at level 10, x name, m at level 100, k at level 200).
Notation "'do' m 'then' k" := (bind m (fun _ => k))
  (at level 10, m at level 100, k at level 200).

(** *** Environments: the operations of [Ctx] ([lox/ctx.py], which is
    not among the sources) *)

(** Modelled from the spec: the root environment, a single empty frame
    with no parent. *)
Definition root : Ctx := [0%nat].

(** The store a program starts in: the root frame and nothing else. *)
Definition initial : State :=
  {| frames := [∅]; objects := []; serial := 0; output := [] |}.

(** Modelled from the spec: [Ctx.push], which returns a new environment
    whose single new frame holds the given bindings and whose parent is the
    receiver. *)
Definition push (ctx : Ctx) (env : gmap string Value) : M Ctx :=
  fun s =>
    (Ok (length (frames s) :: ctx),
     {| frames := frames s ++ [env]; objects := objects s;
        serial := serial s; output := output s |}).

(** Modelled from the spec: the search of [Ctx.__getitem__], from the
    innermost frame outward to the first frame that binds the name. *)
Fixpoint find (fs : list (gmap string Value)) (ctx : Ctx) (name : string)
  : option Value :=
  match ctx with
  | [] => None
  | a :: outer =>
    match fs !! a ≫= (fun f => f !! name) with
    | Some v => Some v
    | None => find fs outer name
    end
  end.

(** Modelled from the spec: [ctx[name]], which fails with a key error
    when no frame of the chain binds the name. *)
Definition lookup (ctx : Ctx) (name : string) : M Value :=
  fun s =>
    match find (frames s) ctx name with
    | Some v => (Ok v, s)
    | None => (Raise (KeyError name), s)
    end.

(** Writing one binding of the frame at an address. *)
Definition set_frame (a : nat) (name : string) (v : Value) : M unit :=
  fun s =>
    (Ok tt,
     {| frames := alter (fun f => <[name := v]> f) a (frames s);
        objects := objects s; serial := serial s; output := output s |}).

(** Modelled from the spec: [Ctx.var_def], which creates or overwrites
    the binding in the innermost frame only. *)
Definition var_def (ctx : Ctx) (name : string) (v : Value) : M unit :=
  match ctx with
  | a :: _ => set_frame a name v
  | [] => ret tt
  end.

(** Modelled from the spec: the nearest frame that already binds the
    name, searching outward. *)
Fixpoint owner (fs : list (gmap string Value)) (ctx : Ctx) (name : string)
  : option nat :=
  match ctx with
  | [] => None
  | a :: outer =>
    match fs !! a ≫= (fun f => f !! name) with
    | Some _ => Some a
    | None => owner fs outer name
    end
  end.

(** Modelled from the spec: [Ctx.assign], which overwrites the nearest
    existing binding in place and fails with a key error when no frame
    binds the name; it never creates a binding. *)
Definition assign (ctx : Ctx) (name : string) (v : Value) : M unit :=
  fun s =>
    match owner (frames s) ctx name with
    | Some a => set_frame a name v s
    | None => (Raise (KeyError name), s)
    end.

(** *** Host objects *)

(** The name under which [LoxInstance.__init__] stores the class in the
    dictionary of the instance: [self.__class], mangled by the host. *)
Definition class_slot : string := "_LoxInstance__class".

(** [LoxInstance(cls)]: a new object whose dictionary holds the class, in
    its slot, and nothing else.  The slot is written here only (a write
    under a name of the host ends the evaluation, see [Setattr]), so the
    class that the instance value carries is the one in the slot. *)
Definition new_instance (cls : LoxClass) : M LoxInstance :=
  fun s =>
    (Ok {| inst_id := length (objects s); inst_class := cls |},
     {| frames := frames s;
        objects := objects s ++ [{[class_slot := VClass cls]}];
        serial := serial s; output := output s |}).

Definition get_field (i : LoxInstance) (attr : string)
  : M (option Value) :=
  fun s => (Ok (objects s !! inst_id i ≫= (fun d => d !! attr)), s).

Definition set_field (i : LoxInstance) (attr : string) (v : Value)
  : M unit :=
  fun s =>
    (Ok tt,
     {| frames := frames s;
        objects := alter (fun d => <[attr := v]> d) (inst_id i) (objects s);
        serial := serial s; output := output s |}).

Definition fresh_serial : M nat :=
  fun s =>
    (Ok (serial s),
     {| frames := frames s; objects := objects s;
        serial := S (serial s); output := output s |}).

(** [print(value)]: one more line of output. *)
Definition print (value : Value) : M unit :=
  fun s =>
    (Ok tt,
     {| frames := frames s; objects := objects s; serial := serial s;
        output := output s ++ [show value] |}).

End Store.

(** ** Calls and evaluation ([lox/runtime.py], [lox/ast.py]) *)

Module Interp.
Import Ast Runtime Store.

(** [dict(zip(params, args))]: a later pair overwrites an earlier one. *)
Definition dict_of (pairs : list (string * Value)) : gmap string Value :=
  foldl (fun m p => <[fst p := snd p]> m) ∅ pairs.

Definition arity_message (expected got : nat) : string :=
  "Expected " ++ pretty expected ++ " arguments but got " ++
  pretty got ++ ".".

(** [LoxFunction.bind] *)
Definition bind_this (f : LoxFunction) (obj : Value) : M LoxFunction :=
  let* ctx' := push (fn_ctx f) {["this" := obj]} in
  ret {| fn_name := fn_name f; fn_params := fn_params f;
         fn_body := fn_body f; fn_ctx := ctx' |}.

(** The callables are defined over the evaluator of statements, which the
    recursive definition below supplies. *)
Section Callables.
Variable eval_body : Stmt -> Ctx -> M unit.

(** [try: body.eval(new_ctx); return None
     except LoxReturn as e: return e.value] *)
Definition run_body (body : Stmt) (new_ctx : Ctx) : M Value :=
  try_except (do eval_body body new_ctx then ret VNil)
             is_LoxReturn
             (fun e => match e with
                       | LoxReturn v => ret v
                       | _ => raise e
                       end).

(** [LoxFunction.__call__] *)
Definition LoxFunction_call (f : LoxFunction) (args : list Value)
  : M Value :=
  if negb (length args =? length (fn_params f))%nat
  then raise (LoxError (arity_message (length (fn_params f))
                                      (length args)))
  else
    let env := dict_of (zip (fn_params f) args) in
    let* new_ctx := push (fn_ctx f) env in
    run_body (fn_body f) new_ctx.

(** [LoxBoundMethod.__call__] *)
Definition LoxBoundMethod_call (instance : LoxInstance)
           (method : LoxFunction) (args : list Value) : M Value :=
  if negb (length args =? length (fn_params method))%nat
  then raise (LoxError (arity_message (length (fn_params method))
                                      (length args)))
  else
    let env :=
      foldl (fun m p => <[fst p := snd p]> m)
            {["this" := VInstance instance]}
            (zip (fn_params method) args) in
    let* new_ctx := push (fn_ctx method) env in
    run_body (fn_body method) new_ctx.

(** The closure built by [LoxInstance._create_init_wrapper] *)
Definition init_wrapper (self : LoxInstance) (init_method : LoxFunction)
           (args : list Value) : M Value :=
  let* bound_init := bind_this init_method (VInstance self) in
  do LoxFunction_call bound_init args then
  ret (VInstance self).

(** The body of the [try] statement of [LoxClass.__call__] *)
Definition init_attempt (self : LoxClass) (instance : LoxInstance)
           (args : list Value) : M unit :=
  let* init_method := lift (get_method self "init") in
  let* bound_init := bind_this init_method (VInstance instance) in
  do LoxFunction_call bound_init args then
  ret tt.

(** [LoxClass.__call__] *)
Definition LoxClass_call (self : LoxClass) (args : list Value)
  : M Value :=
  let* instance := new_instance self in
  do try_except
       (init_attempt self instance args)
       is_LoxError
       (fun _ =>
          match args with
          | _ :: _ =>
            raise (LoxError (arity_message 0 (length args)))
          | [] => ret tt
          end)
  then ret (VInstance instance).

(** [callable(func_obj)] *)
Definition callable (v : Value) : bool :=
  match v with
  | VFunction _ | VClass _ | VBoundMethod _ _ _ | VInitWrapper _ _ _ =>
    true
  | _ => false
  end.

(** The call of [func_obj] on the evaluated arguments *)
Definition call (func_obj : Value) (params : list Value) : M Value :=
  match func_obj with
  | VFunction f => LoxFunction_call f params
  | VClass c => LoxClass_call c params
  | VBoundMethod _ i m => LoxBoundMethod_call i m params
  | VInitWrapper _ i m => init_wrapper i m params
  | _ =>
    raise (TypeError ("'" ++ type_name (type func_obj) ++
                      "' object is not callable"))
  end.

End Callables.

(** [LoxInstance.__getattr__]: reached when the instance has no attribute
    of that name.  The constructor of [LoxBoundMethod] also builds an
    environment of its own holding [this], which nothing reads. *)
Definition LoxInstance_getattr (self : LoxInstance) (attr : string)
  : M Value :=
  let* method := lift (get_method (inst_class self) attr) in
  if String.eqb attr "init"
  then let* id := fresh_serial in ret (VInitWrapper id self method)
  else
    let* id := fresh_serial in
    do push [] {["this" := VInstance self]} then
    ret (VBoundMethod id self method).

(** The names the host may define on an instance all begin with an
    underscore: the slot of the class, the methods [__init__], [__str__],
    [__getattr__] and [_create_init_wrapper] of [LoxInstance], and what
    [dataclass] and [object] add ([__dict__], [__class__], [__eq__],
    ...).  Which of these names exist depends on the host; every name
    that begins with an underscore is left to it. *)
Definition host_name (attr : string) : bool := String.prefix "_" attr.

(** [getattr(obj, attr)].  On an instance, under a name that is not the
    host's, the host looks in the dictionary of the instance first and
    falls back to [__getattr__].  Under a name of the host, and on every
    other object, the host's own attribute tables answer: the evaluation
    leaves the model. *)
Definition getattr (obj : Value) (attr : string) : M Value :=
  match obj with
  | VInstance i =>
    if host_name attr then raise (HostAttribute attr)
    else
      let* field := get_field i attr in
      match field with
      | Some v => ret v
      | None => LoxInstance_getattr i attr
      end
  | _ => raise (HostAttribute attr)
  end.

(** Is [needle] a substring of [hay]? *)
Fixpoint contains (needle hay : string) : bool :=
  String.prefix needle hay ||
  match hay with
  | EmptyString => false
  | String _ rest => contains needle rest
  end.

(** The handler of [Super.eval], which inspects the text of the key
    error. *)
Definition super_handler (e : Exn) : M Value :=
  match e with
  | KeyError key =>
    let text := "'" ++ key ++ "'" in
    if contains "super" text
    then raise (NameError "variável super não existe!")
    else if contains "this" text
    then raise (NameError "variável this não existe!")
    else raise e
  | _ => raise e
  end.

(** The method table of [Class.eval]: one [LoxFunction] per method node,
    closed over [method_ctx]; a later method replaces an earlier one of
    the same name.  A node without [name], [body] and [params] fields
    makes the host raise an attribute error. *)
Fixpoint method_table (method_defs : list Stmt) (method_ctx : Ctx)
         (methods : gmap string LoxFunction)
  : Result (gmap string LoxFunction) :=
  match method_defs with
  | [] => Ok methods
  | Function method_name method_args method_body :: rest =>
    let method_impl :=
      {| fn_name := method_name; fn_params := method_args;
         fn_body := method_body; fn_ctx := method_ctx |} in
    method_table rest method_ctx (<[method_name := method_impl]> methods)
  | _ :: _ => Raise (AttributeError "no such attribute")
  end.

(** The argument loop of [Call.eval]: each expression in turn, the
    values collected in order. *)
Fixpoint eval_each (ev : Expr -> M Value) (ps : list Expr)
  : M (list Value) :=
  match ps with
  | [] => ret []
  | p :: ps' =>
    let* v := ev p in
    let* vs := eval_each ev ps' in
    ret (v :: vs)
  end.

(** [for stmt in stmts: stmt.eval(ctx)] *)
Fixpoint exec_each (ev : Stmt -> M unit) (ss : list Stmt) : M unit :=
  match ss with
  | [] => ret tt
  | stmt :: ss' => do ev stmt then exec_each ev ss'
  end.

(** The [eval] methods of the expression and statement nodes.  The
    values of a program are those of the language; an object of the host
    (a field or a method of the interpreter's own data structures) can
    enter a program through attribute access only, and there the
    evaluation stops with [HostAttribute]: [Call] never meets a callable
    of the host other than the [init] wrapper, and [Setattr] writes the
    dictionary of an instance under names that are not the host's. *)
Fixpoint eval_expr (fuel : nat) (e : Expr) (ctx : Ctx) {struct fuel}
  : M Value :=
  match fuel with
  | O => raise OutOfFuel
  | S n =>
    match e with
    | BinOp l r op =>
      let* left_value := eval_expr n l ctx in
      let* right_value := eval_expr n r ctx in
      lift (apply_binop op left_value right_value)
    | Var name =>
      try_except (lookup ctx name) is_KeyError
        (fun _ => raise (NameError ("variável " ++ name ++ " não existe!")))
    | Literal value => ret (value_of_lit value)
    | And l r =>
      let* left_val := eval_expr n l ctx in
      match left_val with
      | VBool false | VNil => ret left_val
      | _ => eval_expr n r ctx
      end
    | Or l r =>
      let* left_val := eval_expr n l ctx in
      match left_val with
      | VBool false | VNil => eval_expr n r ctx
      | _ => ret left_val
      end
    | UnaryOp expr op =>
      let* value := eval_expr n expr ctx in
      lift (apply_unop op value)
    | Call func params =>
      let* func_obj := eval_expr n func ctx in
      let* args := eval_each (fun p => eval_expr n p ctx) params in
      if callable func_obj
      then call (eval_stmt n) func_obj args
      else raise (TypeError "Objeto não é uma função!")
    | This =>
      try_except (lookup ctx "this") is_KeyError
        (fun _ => raise (NameError "variável this não existe!"))
    | Super method_name =>
      try_except
        (let* superclass := lookup ctx "super" in
         let* this := lookup ctx "this" in
         match superclass with
         | VClass c =>
           let* method := lift (get_method c method_name) in
           let* bound := bind_this method this in
           ret (VFunction bound)
         | _ => raise (HostAttribute "get_method")
         end)
        is_KeyError super_handler
    | Assign name value =>
      let* result := eval_expr n value ctx in
      do assign ctx name result then
      ret result
    | Getattr value attr =>
      let* obj := eval_expr n value ctx in
      getattr obj attr
    | Setattr value attr expr =>
      let* obj := eval_expr n value ctx in
      let* val := eval_expr n expr ctx in
      match obj with
      | VClass _ | VFunction _ =>
        raise (RuntimeError "Only instances have fields.")
      | VInstance i =>
        if host_name attr then raise (HostAttribute attr)
        else do set_field i attr val then ret val
      | _ => raise (HostAttribute attr)
      end
    end
  end

with eval_stmt (fuel : nat) (s : Stmt) (ctx : Ctx) {struct fuel}
  : M unit :=
  match fuel with
  | O => raise OutOfFuel
  | S n =>
    match s with
    | ExprStmt e => do eval_expr n e ctx then ret tt
    | Print expr =>
      let* value := eval_expr n expr ctx in
      print value
    | Return value =>
      let* result :=
        match value with
        | Some e => eval_expr n e ctx
        | None => ret VNil
        end in
      raise (LoxReturn result)
    | VarDef name value =>
      let* result := eval_expr n value ctx in
      var_def ctx name result
    | If condition then_stmt else_stmt =>
      let* condition_val := eval_expr n condition ctx in
      if truthy condition_val then eval_stmt n then_stmt ctx
      else match else_stmt with
           | Some s' => eval_stmt n s' ctx
           | None => ret tt
           end
    | While condition body =>
      let* condition_val := eval_expr n condition ctx in
      if negb (truthy condition_val) then ret tt
      else do eval_stmt n body ctx then eval_stmt n (While condition body) ctx
    | Block stmts =>
      let* new_ctx := push ctx ∅ in
      exec_each (fun stmt => eval_stmt n stmt new_ctx) stmts
    | Function name params body =>
      let function :=
        {| fn_name := name; fn_params := params; fn_body := body;
           fn_ctx := ctx |} in
      var_def ctx name (VFunction function)
    | Class name method_defs superclass_name =>
      let* superclass :=
        match superclass_name with
        | None => ret None
        | Some sname =>
          let* v := lookup ctx sname in
          match v with
          | VClass c => ret (Some c)
          | _ => raise (SemanticError "Superclass must be a class." None)
          end
        end in
      let* method_ctx :=
        match superclass with
        | None => ret ctx
        | Some c => push ctx {["super" := VClass c]}
        end in
      let* methods := lift (method_table method_defs method_ctx ∅) in
      var_def ctx name (VClass (mkLoxClass name methods superclass))
    end
  end.

(** [Program.eval] *)
Definition eval_program (fuel : nat) (p : Program) (ctx : Ctx) : M unit :=
  let 'MkProgram stmts := p in
  exec_each (fun stmt => eval_stmt fuel stmt ctx) stmts.

(** Running a program: one fresh root environment. *)
Definition run (fuel : nat) (p : Program) : Result unit * State :=
  eval_program fuel p root initial.

End Interp.

(** ** Static validation ([validate_self] hooks of [lox/ast.py]) *)

Module Validation.
Import Ast Runtime.

(** Any node of the tree.  An expression in statement position is the
    expression node itself. *)
Inductive Node :=
| NProgram (p : Program)
| NExpr (e : Expr)
| NStmt (s : Stmt).

Definition node_of_stmt (s : Stmt) : Node :=
  match s with
  | ExprStmt e => NExpr e
  | _ => NStmt s
  end.

(** Modelled from the spec: the [Cursor] of [lox/node.py], which is not
    among the sources.  A cursor pairs a node with the cursor of its
    parent (absent at the root) and yields its ancestors from the
    immediate parent outward to the root. *)
Inductive Cursor :=
| mkCursor (node : Node) (parent_cursor : option Cursor).

Definition node (c : Cursor) : Node :=
  let 'mkCursor n _ := c in n.
Definition parent_cursor (c : Cursor) : option Cursor :=
  let 'mkCursor _ p := c in p.

(** Modelled from the spec: [Cursor.parents], the ancestor cursors from
    the immediate parent outward to the root. *)
Fixpoint parents (c : Cursor) : list Cursor :=
  match c with
  | mkCursor _ None => []
  | mkCursor _ (Some p) => p :: parents p
  end.

Definition reserved_words : gset string :=
  list_to_set
    ["true"; "false"; "nil"; "return"; "var"; "fun"; "class"; "if";
     "else"; "while"; "for"; "print"; "and"; "or"; "this"; "super"].

Definition reserved (name : string) : bool :=
  bool_decide (name ∈ reserved_words).

Definition semantic_error (msg : string) (token : string) : Result unit :=
  Raise (SemanticError msg (Some token)).

Definition is_Block (n : Node) : bool :=
  match n with NStmt (Block _) => true | _ => false end.
Definition is_Class (n : Node) : bool :=
  match n with NStmt (Class _ _ _) => true | _ => false end.
Definition is_Function (n : Node) : bool :=
  match n with NStmt (Function _ _ _) => true | _ => false end.

(** The loop of [Var.validate_self] over [cursor.parents()]: it stops at
    the first ancestor that is a [VarDef]. *)
Fixpoint Var_scan (name : string) (ancestors : list Cursor)
  : Result unit :=
  match ancestors with
  | [] => Ok tt
  | parent_cursor :: rest =>
    match node parent_cursor with
    | NStmt (VarDef declared _) =>
      if String.eqb declared name then
        let is_local :=
          existsb (fun ancestor => is_Block (node ancestor))
                  (parents parent_cursor) in
        if is_local
        then semantic_error
               "Can't read local variable in its own initializer." name
        else Ok tt
      else Ok tt
    | _ => Var_scan name rest
    end
  end.

Definition Var_validate_self (name : string) (cursor : Cursor)
  : Result unit :=
  if reserved name then semantic_error "Expect variable name." name
  else Var_scan name (parents cursor).

Definition This_validate_self (cursor : Cursor) : Result unit :=
  if existsb (fun p => is_Class (node p)) (parents cursor) then Ok tt
  else semantic_error "Can't use 'this' outside of a class." "this".

Definition Super_validate_self (cursor : Cursor) : Result unit :=
  match List.find (fun p => is_Class (node p)) (parents cursor) with
  | None => semantic_error "Can't use 'super' outside of a class." "super"
  | Some enclosing_class =>
    match node enclosing_class with
    | NStmt (Class _ _ None) =>
      semantic_error "Can't use 'super' in a class with no superclass."
                     "super"
    | _ => Ok tt
    end
  end.

(** [Return.validate_self].  The second loop of the source finds the
    enclosing function again, as the first ancestor that is a [Function]
    and equals it, and takes the parent of that cursor. *)
Definition Return_validate_self (value : option Expr) (cursor : Cursor)
  : Result unit :=
  match List.find (fun p => is_Function (node p)) (parents cursor) with
  | None => semantic_error "Can't return from top-level code." "return"
  | Some enclosing =>
    match node enclosing, value with
    | NStmt (Function "init" _ _), Some _ =>
      match parent_cursor enclosing with
      | Some function_parent =>
        if is_Class (node function_parent)
        then semantic_error "Can't return a value from an initializer."
                            "return"
        else Ok tt
      | None => Ok tt
      end
    | _, _ => Ok tt
    end
  end.

Definition VarDef_validate_self (name : string) : Result unit :=
  if reserved name then semantic_error "Expect variable name." name
  else Ok tt.

(** First loop of [Block.validate_self]: no name declared twice. *)
Fixpoint Block_distinct (stmts : list Stmt) (declared_vars : gset string)
  : Result unit :=
  match stmts with
  | [] => Ok tt
  | VarDef name _ :: rest =>
    if bool_decide (name ∈ declared_vars)
    then semantic_error "Already a variable with this name in this scope."
                        name
    else Block_distinct rest ({[name]} ∪ declared_vars)
  | _ :: rest => Block_distinct rest declared_vars
  end.

(** Inner loop: no declaration named like a parameter. *)
Fixpoint Block_params (stmts : list Stmt) (params : list string)
  : Result unit :=
  match stmts with
  | [] => Ok tt
  | VarDef name _ :: rest =>
    if existsb (String.eqb name) params
    then semantic_error "Already a variable with this name in this scope."
                        name
    else Block_params rest params
  | _ :: rest => Block_params rest params
  end.

(** Second loop: outward to the nearest enclosing [Function]. *)
Fixpoint Block_scan (stmts : list Stmt) (ancestors : list Cursor)
  : Result unit :=
  match ancestors with
  | [] => Ok tt
  | parent :: rest =>
    match node parent with
    | NStmt (Function _ params _) => Block_params stmts params
    | _ => Block_scan stmts rest
    end
  end.

Definition Block_validate_self (stmts : list Stmt) (cursor : Cursor)
  : Result unit :=
  match Block_distinct stmts ∅ with
  | Raise e => Raise e
  | Ok _ => Block_scan stmts (parents cursor)
  end.

Fixpoint first_duplicate (params : list string) (seen : gset string)
  : Result unit :=
  match params with
  | [] => Ok tt
  | param_name :: rest =>
    if bool_decide (param_name ∈ seen)
    then semantic_error "Already a variable with this name in this scope."
                        param_name
    else first_duplicate rest ({[param_name]} ∪ seen)
  end.

Definition Function_validate_self (params : list string) : Result unit :=
  match List.find reserved params with
  | Some param_name => semantic_error "Expect variable name." param_name
  | None => first_duplicate params ∅
  end.

Definition Class_validate_self (name : string)
           (superclass : option string) : Result unit :=
  match superclass with
  | Some s =>
    if String.eqb s name
    then semantic_error "A class can't inherit from itself." s
    else Ok tt
  | None => Ok tt
  end.

(** The hook of a node; node classes that define none accept. *)
Definition validate_self (c : Cursor) : Result unit :=
  match node c with
  | NExpr (Var name) => Var_validate_self name c
  | NExpr This => This_validate_self c
  | NExpr (Super _) => Super_validate_self c
  | NStmt (Return value) => Return_validate_self value c
  | NStmt (VarDef name _) => VarDef_validate_self name
  | NStmt (Block stmts) => Block_validate_self stmts c
  | NStmt (Function _ params _) => Function_validate_self params
  | NStmt (Class name _ superclass) => Class_validate_self name superclass
  | _ => Ok tt
  end.

Definition andThen (r : Result unit) (k : Result unit) : Result unit :=
  match r with
  | Ok _ => k
  | Raise e => Raise e
  end.

(** Modelled from the spec: the validation pass of [lox/node.py].  One
    top-down traversal, depth first and left to right in the order the
    fields are declared; each node gets a cursor linked to its parent's
    and its hook runs before its children are visited; the first error
    ends the pass. *)
Fixpoint validate_expr (e : Expr) (parent : option Cursor) {struct e}
  : Result unit :=
  let c := mkCursor (NExpr e) parent in
  andThen (validate_self c)
    match e with
    | BinOp l r _ | And l r | Or l r =>
      andThen (validate_expr l (Some c)) (validate_expr r (Some c))
    | UnaryOp x _ | Assign _ x | Getattr x _ => validate_expr x (Some c)
    | Call func params =>
      andThen (validate_expr func (Some c))
        ((fix each (ps : list Expr) : Result unit :=
            match ps with
            | [] => Ok tt
            | p :: ps' => andThen (validate_expr p (Some c)) (each ps')
            end) params)
    | Setattr x _ y =>
      andThen (validate_expr x (Some c)) (validate_expr y (Some c))
    | Var _ | Literal _ | This | Super _ => Ok tt
    end.

(** Modelled from the spec: the same pass over a statement. *)
Fixpoint validate_stmt (s : Stmt) (parent : option Cursor) {struct s}
  : Result unit :=
  let c := mkCursor (NStmt s) parent in
  let each :=
    fix each (ss : list Stmt) : Result unit :=
      match ss with
      | [] => Ok tt
      | x :: ss' => andThen (validate_stmt x (Some c)) (each ss')
      end in
  match s with
  | ExprStmt e => validate_expr e parent
  | _ =>
    andThen (validate_self c)
      match s with
      | ExprStmt _ => Ok tt
      | Print e | VarDef _ e => validate_expr e (Some c)
      | Return None => Ok tt
      | Return (Some e) => validate_expr e (Some c)
      | If cond t None =>
        andThen (validate_expr cond (Some c)) (validate_stmt t (Some c))
      | If cond t (Some f) =>
        andThen (validate_expr cond (Some c))
          (andThen (validate_stmt t (Some c)) (validate_stmt f (Some c)))
      | While cond b =>
        andThen (validate_expr cond (Some c)) (validate_stmt b (Some c))
      | Block stmts => each stmts
      | Function _ _ b => validate_stmt b (Some c)
      | Class _ methods _ => each methods
      end
  end.

(** Modelled from the spec: the pass over a whole program, whose cursor
    is the root. *)
Definition validate_program (p : Program) : Result unit :=
  let c := mkCursor (NProgram p) None in
  let 'MkProgram stmts := p in
  (fix each (ss : list Stmt) : Result unit :=
     match ss with
     | [] => Ok tt
     | x :: ss' => andThen (validate_stmt x (Some c)) (each ss')
     end) stmts.

(** Modelled from the spec: the children of a node, in the order the
    pass visits them. *)
Definition children (n : Node) : list Node :=
  match n with
  | NProgram (MkProgram stmts) => map node_of_stmt stmts
  | NExpr e =>
    match e with
    | BinOp l r _ | And l r | Or l r => [NExpr l; NExpr r]
    | UnaryOp x _ | Assign _ x | Getattr x _ => [NExpr x]
    | Call func params => NExpr func :: map NExpr params
    | Setattr x _ y => [NExpr x; NExpr y]
    | Var _ | Literal _ | This | Super _ => []
    end
  | NStmt s =>
    match s with
    | ExprStmt _ => []
    | Print e | VarDef _ e => [NExpr e]
    | Return None => []
    | Return (Some e) => [NExpr e]
    | If cond t None => [NExpr cond; node_of_stmt t]
    | If cond t (Some f) => [NExpr cond; node_of_stmt t; node_of_stmt f]
    | While cond b => [NExpr cond; node_of_stmt b]
    | Block stmts => map node_of_stmt stmts
    | Function _ _ b => [node_of_stmt b]
    | Class _ methods _ => map node_of_stmt methods
    end
  end.

(** Modelled from the spec: the pass started at any node. *)
Definition validate_node (n : Node) (parent : option Cursor)
  : Result unit :=
  match n with
  | NProgram p => validate_program p
  | NExpr e => validate_expr e parent
  | NStmt s => validate_stmt s parent
  end.

End Validation.

(** ** Vocabulary of the properties *)

Module Props.
Import Ast Runtime Store Interp Validation.

(** A number in the sense of the language: a double, or a host integer;
    not a boolean. *)
Definition is_number (v : Value) : bool :=
  match v with
  | VNum _ | VInt _ => true
  | _ => false
  end.

(** A number that compares equal to zero: [0.0], [-0.0], the integer 0. *)
Definition is_zero (v : Value) : bool :=
  match v with
  | VNum x => Float64.eqb x Float64.zero
  | VInt n => n =? 0
  | _ => false
  end.

(** The class, or one of the classes it inherits from, has a method of
    that name. *)
Fixpoint defines (c : LoxClass) (name : string) : bool :=
  match c with
  | mkLoxClass _ methods base =>
    match methods !! name with
    | Some _ => true
    | None =>
      match base with
      | Some b => defines b name
      | None => false
      end
    end
  end.

(** The double [x] is finite and its value is exactly the integer [n]. *)
Definition exact (x : Float64.t) (n : Z) : Prop :=
  match x with
  | S754_zero _ => n = 0
  | S754_finite s m e =>
    let a := if s then - n else n in
    if 0 <=? e then a = Z.pos m * 2 ^ e else a * 2 ^ (- e) = Z.pos m
  | _ => False
  end.

Fixpoint has_char (c : ascii) (s : string) : bool :=
  match s with
  | EmptyString => false
  | String d rest => Ascii.eqb c d || has_char c rest
  end.

(** Numerals used in the examples. *)
Definition number (D k : Z) : Value := VNum (Float64.of_decimal D k).
Definition numeral (D : Z) : Expr := Literal (LNum (Float64.of_decimal D 0)).

Definition is_expression (n : Node) : bool :=
  match n with NExpr _ => true | _ => false end.

Definition is_VarDef (n : Node) : bool :=
  match n with NStmt (VarDef _ _) => true | _ => false end.

(** The store after one more instance of a class has been created. *)
Definition with_instance (s : State) (cls : LoxClass) : State :=
  {| frames := frames s;
     objects := objects s ++ [{[class_slot := VClass cls]}];
     serial := serial s; output := output s |}.

Definition fresh_instance (s : State) (cls : LoxClass) : LoxInstance :=
  {| inst_id := length (objects s); inst_class := cls |}.

(** The class [class P { init(x) { this.x = x; } }], as a declaration
    and as the value its evaluation at top level produces. *)
Definition class_P_decl : Stmt :=
  Class "P"
        [Function "init" ["x"]
                  (Block [ExprStmt (Setattr This "x" (Var "x"))])]
        None.

Definition init_P : LoxFunction :=
  {| fn_name := "init"; fn_params := ["x"];
     fn_body := Block [ExprStmt (Setattr This "x" (Var "x"))];
     fn_ctx := root |}.

Definition class_P : LoxClass :=
  mkLoxClass "P" {["init" := init_P]} None.

(** A class without methods. *)
Definition class_A : LoxClass := mkLoxClass "A" ∅ None.

(** The cursors down to the reference [x] in [{ var x = x + 1; }]. *)
Definition own_init : Expr := BinOp (Var "x") (numeral 1) OpAdd.

Definition own_init_VarDef : Cursor :=
  mkCursor
    (NStmt (VarDef "x" own_init))
    (Some (mkCursor
             (NStmt (Block [VarDef "x" own_init]))
             (Some (mkCursor
                      (NProgram (MkProgram [Block [VarDef "x" own_init]]))
                      None)))).

Definition own_init_operator : Cursor :=
  mkCursor (NExpr own_init) (Some own_init_VarDef).

(** The cursors of the nodes of a tree: the cursor of the root, and with
    the cursor of a node those of its children, each linked to it. *)
Inductive visited (top : Cursor) : Cursor -> Prop :=
| visited_top : visited top top
| visited_child (c : Cursor) (n : Node) :
    visited top c -> In n (children (node c)) ->
    visited top (mkCursor n (Some c)).

(** [print 1; var S = 1; class C < S {}] *)
Definition superclass_not_class : Program :=
  MkProgram [Print (numeral 1);
             VarDef "S" (numeral 1);
             Class "C" [] (Some "S")].

(** What calling a class does with a method found under the name [init]:
    create the instance, bind the method to it, call it on the
    arguments. *)
Definition init_invocation (ev : Stmt -> Ctx -> M unit) (cls : LoxClass)
           (init_method : LoxFunction) (args : list Value) : M Value :=
  let* instance := new_instance cls in
  let* bound_init := bind_this init_method (VInstance instance) in
  LoxFunction_call ev bound_init args.

End Props.

(** ** Parse-tree transformation ([lox/transformer.py]) *)

Module Transformer.
Import Ast.

(** Text is held as its UTF-8 bytes, as the string literals of this
    development are.  A character of the host's [str] is a lead byte
    followed by continuation bytes (those of the form [10xxxxxx]); the
    lead byte tells how many bytes the character takes. *)
Definition continuation (c : ascii) : bool :=
  let n := N_of_ascii c in ((128 <=? n) && (n <? 192))%N.

Definition width (lead : ascii) : nat :=
  let n := N_of_ascii lead in
  if (n <? 192)%N then 1%nat
  else if (n <? 224)%N then 2%nat
  else if (n <? 240)%N then 3%nat
  else 4%nat.

Fixpoint continuations (s : string) : bool :=
  match s with
  | EmptyString => true
  | String c rest => continuation c && continuations rest
  end.

(** One whole character. *)
Definition character (s : string) : bool :=
  match s with
  | EmptyString => false
  | String lead rest =>
    negb (continuation lead) &&
    (String.length rest =? width lead - 1)%nat &&
    continuations rest
  end.

Fixpoint skip (n : nat) (s : string) : string :=
  match n, s with
  | S n', String _ rest => skip n' rest
  | _, _ => s
  end.

(** [s[1:]]: a string without its first character. *)
Definition drop_first (s : string) : string :=
  match s with
  | EmptyString => EmptyString
  | String lead rest => skip (width lead - 1) rest
  end.

(** [s[:-1]]: a string without its last character, which begins at the
    last byte that only continuation bytes follow. *)
Fixpoint drop_last (s : string) : string :=
  match s with
  | EmptyString => EmptyString
  | String c rest =>
    if continuations rest then EmptyString
    else String c (drop_last rest)
  end.

(** [LoxTransformer.STRING]: the text of the token without its first and
    its last character ([str(token)[1:-1]]). *)
Definition STRING (token : string) : Expr :=
  Literal (LStr (drop_last (drop_first token))).


End Transformer.

(** ** Vocabulary of the further properties *)

Module Laws.
Import Ast Runtime Store Interp Validation.

Definition is_string (v : Value) : bool :=
  match v with VStr _ => true | _ => false end.

Definition is_double (v : Value) : bool :=
  match v with VNum _ => true | _ => false end.

Definition is_nan (x : Float64.t) : bool :=
  match x with S754_nan => true | _ => false end.

(** A function or a class: a value compared through the syntax tree it
    holds. *)
Definition is_code (v : Value) : bool :=
  match v with VFunction _ | VClass _ => true | _ => false end.

(** The NaN number. *)
Definition is_nan_value (v : Value) : bool :=
  match v with VNum x => is_nan x | _ => false end.

(** A comparison that completed and answered yes. *)
Definition holds (r : Result bool) : bool :=
  match r with
  | Ok true => true
  | _ => false
  end.

(** A class followed by the classes it inherits from, nearest first. *)
Fixpoint ancestry (c : LoxClass) : list LoxClass :=
  match c with
  | mkLoxClass _ _ base =>
    c :: match base with
         | Some b => ancestry b
         | None => []
         end
  end.

(** The class has no method of that name of its own. *)
Definition lacks (name : string) (c : LoxClass) : Prop :=
  cls_methods c !! name = None.

(** A computation that never lets the return signal out. *)
Definition no_return {A} (m : M A) : Prop :=
  forall s v s', m s <> (Raise (LoxReturn v), s').

Definition no_return_result {A} (r : Result A) : Prop :=
  forall v, r <> Raise (LoxReturn v).

(** The value stored under an attribute name in the dictionary of an
    instance, if any. *)
Definition field_of (s : State) (i : LoxInstance) (attr : string)
  : option Value :=
  objects s !! inst_id i ≫= (fun d => d !! attr).

(** The store after an attribute of an instance has been written. *)
Definition with_field (s : State) (i : LoxInstance) (attr : string)
           (v : Value) : State :=
  {| frames := frames s;
     objects := alter (fun d => <[attr := v]> d) (inst_id i) (objects s);
     serial := serial s; output := output s |}.

(** A store with one instance of the class [P] of the examples, bound to
    the variable [p] of the root scope. *)
Definition the_instance : LoxInstance :=
  {| inst_id := 0; inst_class := Props.class_P |}.

Definition one_instance : State :=
  {| frames := [{["p" := VInstance the_instance]}];
     objects := [{[class_slot := VClass Props.class_P]}];
     serial := 0; output := [] |}.




(** The last declaration of a method of that name in a class body: its
    parameters and its body. *)
Fixpoint last_method (name : string) (defs : list Stmt)
  : option (list string * Stmt) :=
  match defs with
  | [] => None
  | d :: rest =>
    match last_method name rest with
    | Some found => Some found
    | None =>
      match d with
      | Function n ps b => if String.eqb n name then Some (ps, b) else None
      | _ => None
      end
    end
  end.

(** The names a list of statements declares with [var], in order. *)
Fixpoint declared (stmts : list Stmt) : list string :=
  match stmts with
  | [] => []
  | VarDef name _ :: rest => name :: declared rest
  | _ :: rest => declared rest
  end.

(** The parameters of the nearest function among the ancestors of a
    cursor; none when no ancestor is a function. *)
Definition enclosing_params (c : Cursor) : list string :=
  match List.find (fun p => is_Function (node p)) (parents c) with
  | Some p =>
    match node p with
    | NStmt (Function _ params _) => params
    | _ => []
    end
  | None => []
  end.

(** [fun f(a) { if (true) { var a = 1; } }]: the block of the [if] as the
    validation pass reaches it. *)
Definition shadowing_block : Cursor :=
  let inner := Block [VarDef "a" (Literal LNil)] in
  let cond := If (Literal (LBool true)) inner None in
  let body := Block [cond] in
  let f := Function "f" ["a"] body in
  mkCursor (NStmt inner)
    (Some (mkCursor (NStmt cond)
       (Some (mkCursor (NStmt body)
          (Some (mkCursor (NStmt f)
             (Some (mkCursor (NProgram (MkProgram [f])) None)))))))).

(** One store extends another: the lines printed so far are still there,
    in order and at the front, no instance has gone, and every attribute
    an instance had it still has. *)
Definition extends (s s' : State) : Prop :=
  output s `prefix_of` output s' /\
  (length (objects s) <= length (objects s'))%nat /\
  forall (i : LoxInstance) (attr : string),
    is_Some (field_of s i attr) -> is_Some (field_of s' i attr).

(** A computation that only ever extends the store, however it ends. *)
Definition keeps {A} (m : M A) : Prop :=
  forall s, extends s (snd (m s)).

(** The evaluation has left the model: it stopped where the host's own
    attribute protocol takes over. *)
Definition beyond {A} (r : Result A) : bool :=
  match r with
  | Raise (HostAttribute _) => true
  | _ => false
  end.

End Laws.

(** * Properties *)

Import Ast Runtime Store Interp Validation Props.

(** ** Equality *)

(** C3.  Any two class instances compare equal under [==], whatever their
    classes and whatever fields they hold: the instance class has no
    comparison field, so the generated equality compares nothing. *)
Theorem instances_always_equal :
  forall a b : LoxInstance,
    Runtime.eq (VInstance a) (VInstance b) = true /\
    apply_binop OpEq (VInstance a) (VInstance b) = Ok (VBool true).
Proof.
  intros a b. split; reflexivity.
Qed.

(** Two fresh instances of different classes, one of them with a field. *)
Example instances_equal_program :
  let p := MkProgram
    [Class "A" [] None;
     Class "B" [Function "init" []
                  (Block [ExprStmt (Setattr This "x" (numeral 1))])] None;
     Print (BinOp (Call (Var "A") []) (Call (Var "B") []) OpEq)] in
  fst (run 12 p) = Ok tt /\ output (snd (run 12 p)) = ["true"].
Proof. vm_compute. split; reflexivity. Qed.

Lemma eq_types (l r : Value) :
  Runtime.eq l r = true -> type l = type r.
Proof.
  unfold Runtime.eq.
  destruct l, r; simpl; intros H; try reflexivity; discriminate H.
Qed.

Lemma eq_py_eq (l r : Value) :
  Runtime.eq l r = true -> py_eq l r = true.
Proof.
  unfold Runtime.eq.
  destruct (pytype_eqb (type l) (type r)); simpl; [auto | discriminate].
Qed.

Lemma eq_other_type (l r : Value) :
  type l <> type r -> Runtime.eq l r = false.
Proof.
  intros H. destruct (Runtime.eq l r) eqn:E; [|reflexivity].
  apply eq_types in E. contradiction.
Qed.

(** C6.  [==] yields true only if both operands have the same runtime kind
    and their underlying values compare equal; nothing is coerced: a number
    and a string are never equal, nor a boolean and a number; [1 == "1"] is
    false, [1 == 1] is true, [nil == false] is false; and [!=] is the
    negation of [==]. *)
Theorem equality_is_strict :
  (forall l r, Runtime.eq l r = true -> type l = type r /\ py_eq l r = true) /\
  (forall l r, type l <> type r -> Runtime.eq l r = false) /\
  (forall x s, Runtime.eq (VNum x) (VStr s) = false /\
               Runtime.eq (VStr s) (VNum x) = false) /\
  (forall b x, Runtime.eq (VBool b) (VNum x) = false /\
               Runtime.eq (VNum x) (VBool b) = false) /\
  (forall a b, Runtime.eq (VStr a) (VStr b) = true <-> a = b) /\
  (forall a b, Runtime.eq (VBool a) (VBool b) = true <-> a = b) /\
  (forall x y, Runtime.eq (VNum x) (VNum y) = Float64.eqb x y) /\
  Runtime.eq (number 1 0) (VStr "1") = false /\
  Runtime.eq (number 1 0) (number 1 0) = true /\
  Runtime.eq VNil (VBool false) = false /\
  (forall l r, ne l r = negb (Runtime.eq l r)).
Proof.
  repeat split; try reflexivity.
  - apply eq_types; assumption.
  - apply eq_py_eq; assumption.
  - apply eq_other_type; assumption.
  - unfold Runtime.eq; simpl. apply String.eqb_eq.
  - unfold Runtime.eq; simpl. intros ->. apply String.eqb_refl.
  - unfold Runtime.eq; simpl. apply Bool.eqb_prop.
  - intros ->. unfold Runtime.eq; simpl. apply Bool.eqb_reflx.
Qed.

Lemma equality_is_strict_witness :
  type (VStr "a") = type (VStr "a") /\ py_eq (VStr "a") (VStr "a") = true.
Proof.
  apply (proj1 equality_is_strict). reflexivity.
Defined.

(** ** Division *)

Lemma is_number_as_num (v : Value) :
  is_number v = true ->
  isinstance_bool v = false /\
  exists a, as_num v = Some a /\ value_of_num a = v.
Proof.
  destruct v; simpl; intros H; try discriminate H; eauto.
Qed.

Lemma is_zero_host (v : Value) (a : num) :
  is_zero v = true -> as_num v = Some a -> host_nonzero a = false.
Proof.
  destruct v; simpl; intros H E; try discriminate H;
    injection E as <-; simpl; rewrite H; reflexivity.
Qed.

Lemma host_truediv_no_lox_error (a b : num) (msg : string) :
  host_truediv a b <> Raise (LoxError msg).
Proof.
  destruct a as [m | x], b as [n | y]; simpl;
    repeat match goal with
           | |- context [Float64.div_Z ?m ?n] => destruct (Float64.div_Z m n)
           | |- context [float_of_int ?m] =>
             unfold float_of_int; destruct (Float64.of_Z m)
           end; discriminate.
Qed.

Lemma truediv_numbers (l r : Value) :
  is_number l = true -> is_number r = true ->
  truediv l r <> Raise must_be_numbers.
Proof.
  intros Hl Hr.
  destruct (is_number_as_num l Hl) as [Bl [a [Ea _]]].
  destruct (is_number_as_num r Hr) as [Br [b [Eb _]]].
  unfold truediv. rewrite Bl, Br, Ea, Eb. simpl.
  destruct (host_nonzero b).
  - apply host_truediv_no_lox_error.
  - discriminate.
Qed.

Lemma truediv_rejects (l r : Value) :
  is_number l && is_number r = false ->
  truediv l r = Raise must_be_numbers.
Proof.
  destruct l, r; simpl; intros H; try discriminate H; reflexivity.
Qed.

(** C5.  Dividing a number by a zero divisor does not fail: the result is
    the NaN value, which is truthy.  Division fails with "Operands must be
    numbers." exactly when one of the operands is a boolean or is not a
    number at all. *)
Theorem division_by_zero_is_nan (l r : Value) :
  (is_number l = true -> is_zero r = true ->
   truediv l r = Ok (VNum Float64.nan) /\
   truthy (VNum Float64.nan) = true) /\
  (truediv l r = Raise (LoxError "Operands must be numbers.") <->
   is_number l && is_number r = false).
Proof.
  split.
  - intros Hl Hz. split; [|reflexivity].
    assert (Hr : is_number r = true) by (destruct r; try discriminate Hz; reflexivity).
    destruct (is_number_as_num l Hl) as [Bl [a [Ea _]]].
    destruct (is_number_as_num r Hr) as [Br [b [Eb _]]].
    unfold truediv. rewrite Bl, Br, Ea, Eb. simpl.
    rewrite (is_zero_host r b Hz Eb). reflexivity.
  - split.
    + intros E. destruct (is_number l && is_number r) eqn:N; [|reflexivity].
      apply andb_prop in N as [Hl Hr].
      exfalso. exact (truediv_numbers l r Hl Hr E).
    + apply truediv_rejects.
Qed.

Lemma division_by_zero_is_nan_witness :
  truediv (number 1 0) (number 0 0) = Ok (VNum Float64.nan) /\
  truthy (VNum Float64.nan) = true.
Proof.
  apply (proj1 (division_by_zero_is_nan (number 1 0) (number 0 0)));
    reflexivity.
Defined.

(** [1 / 0] evaluated as a program prints the host's text for NaN; a
    negative zero divisor and an integer zero behave alike. *)
Example division_by_zero_program :
  output (snd (run 5 (MkProgram [Print (BinOp (numeral 1) (numeral 0) OpTruediv)])))
  = ["nan"] /\
  truediv (number 1 0) (VNum Float64.neg_zero) = Ok (VNum Float64.nan) /\
  truediv (number 7 0) (number 2 0) = Ok (number 35 (-1)) /\
  truediv (VBool true) (number 1 0) = Raise must_be_numbers /\
  truediv (number 1 0) (VStr "a") = Raise must_be_numbers.
Proof. vm_compute. repeat split; reflexivity. Qed.

(** ** Unary negation *)

(** C7.  The negation operator is the host's own unary minus.  On a number
    it is the arithmetic negation, but a boolean operand is not rejected:
    [-true] evaluates to the host integer -1, where subtraction with a
    boolean operand fails with "Operands must be numbers."; and an operand
    that is neither a number nor a boolean (a string, nil, ...) fails with
    the host's type error, not with that condition. *)
Theorem negation_accepts_booleans :
  (forall x, neg (VNum x) = Ok (VNum (Float64.opp x))) /\
  (forall b, neg (VBool b) = Ok (VInt (- (if b then 1 else 0)))) /\
  fst (eval_expr 2 (UnaryOp (Literal (LBool true)) OpNeg) root initial)
  = Ok (VInt (-1)) /\
  (forall b v, sub v (VBool b) = Raise must_be_numbers /\
               sub (VBool b) v = Raise must_be_numbers) /\
  (forall v, is_number v = false -> isinstance_bool v = false ->
             neg v = Raise (TypeError ("bad operand type for unary -: '" ++
                                       type_name (type v) ++ "'"))).
Proof.
  split; [|split; [|split; [|split]]]; try reflexivity.
  - intros b v. split.
    + unfold sub. destruct (isinstance_bool v); reflexivity.
    + reflexivity.
  - intros v Hn Hb. destruct v; try discriminate; reflexivity.
Qed.

Lemma negation_accepts_booleans_witness :
  neg (VStr "a") = Raise (TypeError "bad operand type for unary -: 'str'").
Proof.
  apply (proj2 (proj2 (proj2 (proj2 negation_accepts_booleans)))
               (VStr "a")); reflexivity.
Defined.

(** What the program [print -true;] writes. *)
Example negation_program :
  run 5 (MkProgram [Print (UnaryOp (Literal (LBool true)) OpNeg)])
  = (Ok tt, {| frames := [∅]; objects := []; serial := 0;
               output := ["int instance"] |}).
Proof. reflexivity. Qed.

(** ** Rendering of numbers *)

Lemma pretty_N_char_no_dot (d : N) :
  Ascii.eqb "." (pretty_N_char d) = false.
Proof.
  unfold pretty_N_char. repeat case_match; reflexivity.
Qed.

Lemma pretty_N_go_no_dot (x : N) :
  forall s, has_char "." s = false -> has_char "." (pretty_N_go x s) = false.
Proof.
  induction (N.lt_wf_0 x) as [x _ IH]. intros s Hs.
  assert (x = 0 \/ 0 < x)%N as [-> | Hpos] by lia.
  - rewrite pretty_N_go_0. exact Hs.
  - rewrite pretty_N_go_step by exact Hpos.
    apply IH.
    + apply N.div_lt; [exact Hpos | reflexivity].
    + cbn [has_char]. rewrite pretty_N_char_no_dot. exact Hs.
Qed.

Lemma pretty_N_no_dot (x : N) : has_char "." (pretty x) = false.
Proof.
  unfold pretty, pretty_N. case_decide; [reflexivity|].
  apply pretty_N_go_no_dot. reflexivity.
Qed.

Lemma pretty_Z_no_dot (n : Z) : has_char "." (pretty n) = false.
Proof.
  destruct n as [| p | p]; unfold pretty, pretty_Z; [reflexivity| |].
  - apply (pretty_N_no_dot (N.pos p)).
  - simpl. apply (pretty_N_no_dot (N.pos p)).
Qed.

Lemma finite_not_zero (s : bool) (m : positive) (e : Z) :
  Float64.eqb (S754_finite s m e) Float64.zero = false.
Proof. destruct s; reflexivity. Qed.

Lemma exact_is_integer (x : Float64.t) (n : Z) :
  exact x n -> Float64.is_integer x = true /\ Float64.to_Z x = Some n.
Proof.
  destruct x as [s | s | | s m e]; simpl; try contradiction.
  - intros ->. split; reflexivity.
  - destruct (0 <=? e) eqn:He.
    + intros Ha. split; [reflexivity|]. f_equal.
      rewrite <- Ha. destruct s; lia.
    + intros Ha. apply Z.leb_gt in He.
      assert (Hp : 0 < 2 ^ (- e)) by (apply Z.pow_pos_nonneg; lia).
      rewrite <- Ha. split.
      * rewrite Z.mod_mul by lia. reflexivity.
      * f_equal. rewrite Z.div_mul by lia. destruct s; lia.
Qed.

Lemma is_integer_exact (x : Float64.t) :
  Float64.is_integer x = true -> exists n, exact x n.
Proof.
  destruct x as [s | s | | s m e]; simpl; try discriminate.
  - intros _. exists 0. reflexivity.
  - destruct (0 <=? e) eqn:He.
    + intros _. exists (if s then - (Z.pos m * 2 ^ e) else Z.pos m * 2 ^ e).
      destruct s; lia.
    + intros Hm. apply Z.eqb_eq in Hm. apply Z.leb_gt in He.
      assert (Hp : 0 < 2 ^ (- e)) by (apply Z.pow_pos_nonneg; lia).
      apply Z.mod_divide in Hm; [|lia]. destruct Hm as [q Hq].
      exists (if s then - q else q). rewrite Hq. destruct s; lia.
Qed.

Lemma show_integral (x : Float64.t) (n : Z) :
  exact x n -> x <> Float64.neg_zero -> show (VNum x) = pretty n.
Proof.
  intros Hx Hnz.
  destruct (exact_is_integer x n Hx) as [Hi Hz].
  destruct x as [s | s | | s m e]; try contradiction.
  - destruct s; [contradiction Hnz; reflexivity|].
    simpl in Hx. subst n. reflexivity.
  - unfold show. rewrite finite_not_zero. cbn [andb].
    rewrite Hi, Hz. reflexivity.
Qed.

Lemma show_fractional (x : Float64.t) :
  Float64.is_integer x = false -> show (VNum x) = Float64.str x.
Proof.
  intros Hi. destruct x as [s | s | | s m e].
  - discriminate Hi.
  - destruct s; reflexivity.
  - reflexivity.
  - unfold show. rewrite finite_not_zero. cbn [andb]. rewrite Hi.
    reflexivity.
Qed.

(** C9.  A double whose value is exactly an integer [n] renders as the
    decimal numeral of [n], which has no decimal point ([3.0] gives "3");
    negative zero renders as "-0"; a value that is not integral renders as
    the host's text for it, fraction included ([3.5] gives "3.5"). *)
Theorem show_number (v : Float64.t) :
  (forall n, exact v n -> v <> Float64.neg_zero ->
     show (VNum v) = pretty n /\ has_char "." (show (VNum v)) = false) /\
  (Float64.is_integer v = false -> show (VNum v) = Float64.str v) /\
  show (number 3 0) = "3" /\
  show (VNum Float64.neg_zero) = "-0" /\
  show (number 35 (-1)) = "3.5".
Proof.
  split; [|split; [|split; [|split]]].
  - intros n Hx Hnz. rewrite (show_integral v n Hx Hnz).
    split; [reflexivity | apply pretty_Z_no_dot].
  - apply show_fractional.
  - vm_compute. reflexivity.
  - vm_compute. reflexivity.
  - vm_compute. reflexivity.
Qed.

Lemma show_number_witness :
  show (number 1 3) = pretty 1000 /\
  has_char "." (show (number 1 3)) = false.
Proof.
  apply (proj1 (show_number (Float64.of_decimal 1 3)) 1000).
  - vm_compute. reflexivity.
  - vm_compute. discriminate.
Defined.

(** Integral and non-integral doubles of every size. *)
Example show_examples :
  show (number 1 21) = "1000000000000000000000" /\
  show (number (-42) 0) = "-42" /\
  show (number 0 0) = "0" /\
  show (number 1 (-1)) = "0.1" /\
  show (number 1 (-7)) = "1e-07" /\
  show (VNum Float64.nan) = "nan" /\
  show (VNum Float64.inf) = "inf" /\
  Float64.str (Float64.of_decimal 3 0) = "3.0".
Proof. vm_compute. repeat split; reflexivity. Qed.

(** ** A variable read in its own initializer *)

Lemma Var_scan_expressions (name : string) (between rest : list Cursor) :
  forallb (fun a => negb (is_VarDef (node a))) between = true ->
  Var_scan name (between ++ rest)%list = Var_scan name rest.
Proof.
  induction between as [| a between IH]; simpl; [reflexivity|].
  intros H. apply andb_prop in H as [Ha Hb].
  destruct (node a) as [p | e | s]; try (apply IH; exact Hb).
  destruct s; try (apply IH; exact Hb). discriminate Ha.
Qed.

Lemma expressions_not_VarDef (l : list Cursor) :
  forallb (fun a => is_expression (node a)) l = true ->
  forallb (fun a => negb (is_VarDef (node a))) l = true.
Proof.
  induction l as [| a l IH]; simpl; [reflexivity|].
  intros H. apply andb_prop in H as [Ha Hl].
  rewrite (IH Hl). destruct (node a); try discriminate Ha. reflexivity.
Qed.

Lemma Var_scan_no_VarDef (name : string) (l : list Cursor) :
  forallb (fun a => negb (is_VarDef (node a))) l = true ->
  Var_scan name l = Ok tt.
Proof.
  intros H. rewrite <- (app_nil_r l).
  rewrite Var_scan_expressions by exact H. reflexivity.
Qed.

Lemma andThen_Ok (r k : Result unit) :
  andThen r k = Ok tt -> r = Ok tt /\ k = Ok tt.
Proof.
  destruct r as [[] | e]; simpl; [|discriminate]. intros ->.
  split; reflexivity.
Qed.

Lemma validate_node_of_stmt (s : Stmt) (parent : option Cursor) :
  validate_node (node_of_stmt s) parent = validate_stmt s parent.
Proof. destruct s; reflexivity. Qed.

Lemma validate_each_stmts (c : Cursor) (ss : list Stmt) :
  (fix each (l : list Stmt) : Result unit :=
     match l with
     | [] => Ok tt
     | x :: l' => andThen (validate_stmt x (Some c)) (each l')
     end) ss = Ok tt ->
  Forall (fun ch => validate_node ch (Some c) = Ok tt)
         (map node_of_stmt ss).
Proof.
  induction ss as [| x ss IH]; simpl; intros H; constructor.
  - rewrite validate_node_of_stmt. exact (proj1 (andThen_Ok _ _ H)).
  - exact (IH (proj2 (andThen_Ok _ _ H))).
Qed.

Lemma validate_each_exprs (c : Cursor) (ps : list Expr) :
  (fix each (l : list Expr) : Result unit :=
     match l with
     | [] => Ok tt
     | x :: l' => andThen (validate_expr x (Some c)) (each l')
     end) ps = Ok tt ->
  Forall (fun ch => validate_node ch (Some c) = Ok tt) (map NExpr ps).
Proof.
  induction ps as [| x ps IH]; simpl; intros H; constructor.
  - exact (proj1 (andThen_Ok _ _ H)).
  - exact (IH (proj2 (andThen_Ok _ _ H))).
Qed.

Ltac split_andThen :=
  repeat match goal with
         | H : andThen _ _ = Ok tt |- _ =>
           apply andThen_Ok in H; destruct H
         end.

(** A node the pass accepts has an accepting hook, and the pass accepts
    each of its children under the node's cursor. *)
Lemma validate_node_step (n : Node) (parent : option Cursor) :
  match n with NProgram _ => parent = None | _ => True end ->
  validate_node n parent = Ok tt ->
  validate_self (mkCursor n parent) = Ok tt /\
  Forall (fun ch => validate_node ch (Some (mkCursor n parent)) = Ok tt)
         (children n).
Proof.
  destruct n as [[stmts] | e | s].
  - intros -> H. split; [reflexivity|].
    cbn [children]. apply validate_each_stmts. exact H.
  - intros _.
    destruct e; cbn [validate_node validate_expr children]; intros H;
      split_andThen; (split; [assumption|]);
      repeat constructor; try assumption.
    apply validate_each_exprs. assumption.
  - intros _.
    destruct s as [e | e | [e |] | x e | cond t [f |] | cond b | ss
                   | f ps b | c ms sup];
      cbn [validate_node validate_stmt children]; intros H;
      split_andThen;
      try (split; [first [assumption | reflexivity]|]);
      repeat constructor;
      rewrite ?validate_node_of_stmt; try assumption.
    + apply validate_each_stmts. assumption.
    + apply validate_each_stmts. assumption.
Qed.

Lemma node_of_stmt_not_program (s : Stmt) :
  match node_of_stmt s with NProgram _ => False | _ => True end.
Proof. destruct s; exact I. Qed.

Lemma children_not_program (n ch : Node) :
  In ch (children n) ->
  match ch with NProgram _ => False | _ => True end.
Proof.
  assert (Hs : forall ss, In ch (map node_of_stmt ss) ->
                          match ch with NProgram _ => False | _ => True end).
  { intros ss H. apply in_map_iff in H as [x [<- _]].
    apply node_of_stmt_not_program. }
  assert (He : forall ps, In ch (map NExpr ps) ->
                          match ch with NProgram _ => False | _ => True end).
  { intros ps H. apply in_map_iff in H as [x [<- _]]. exact I. }
  intros H.
  destruct n as [[stmts] | e | s]; cbn [children] in H.
  - exact (Hs _ H).
  - destruct e; cbn [In] in H;
      repeat match goal with
             | H : _ \/ _ |- _ => destruct H as [<- | H]
             | H : False |- _ => destruct H
             end; try exact I.
    exact (He _ H).
  - destruct s as [e | e | [e |] | x e | cond t [f |] | cond b | ss
                   | f ps b | c ms sup]; cbn [In] in H;
      repeat match goal with
             | H : _ \/ _ |- _ => destruct H as [<- | H]
             | H : False |- _ => destruct H
             end;
      try exact I; try apply node_of_stmt_not_program;
      exact (Hs _ H).
Qed.

(** Every node of a program that passes validation has been accepted by
    its own hook, under the cursor that links it to its ancestors. *)
Lemma validation_visits_all (p : Program) (c : Cursor) :
  validate_program p = Ok tt ->
  visited (mkCursor (NProgram p) None) c ->
  validate_self c = Ok tt.
Proof.
  intros Hp Hv.
  assert (H : validate_node (node c) (parent_cursor c) = Ok tt /\
              match node c with
              | NProgram _ => parent_cursor c = None
              | _ => True
              end).
  { induction Hv as [| c n Hv [IHv IHp] Hin].
    - split; [exact Hp | reflexivity].
    - destruct c as [m q]. cbn [node parent_cursor] in *.
      destruct (validate_node_step m q IHp IHv) as [_ Hch].
      rewrite Forall_forall in Hch.
      split; [apply Hch, list_elem_of_In, Hin|].
      pose proof (children_not_program m n Hin) as Hn.
      destruct n; [contradiction | exact I | exact I]. }
  destruct c as [m q]. cbn [node parent_cursor] in H.
  exact (proj1 (validate_node_step m q (proj2 H) (proj1 H))).
Qed.

Lemma Var_under_VarDef (name declared : string) (init : Expr)
      (parent : option Cursor) (between : list Cursor) (d : Cursor) :
  reserved name = false ->
  parents (mkCursor (NExpr (Var name)) parent)
  = (between ++ d :: parents d)%list ->
  forallb (fun a => is_expression (node a)) between = true ->
  node d = NStmt (VarDef declared init) ->
  validate_self (mkCursor (NExpr (Var name)) parent)
  = if String.eqb declared name &&
       existsb (fun a => is_Block (node a)) (parents d)
    then Raise (SemanticError
                  "Can't read local variable in its own initializer."
                  (Some name))
    else Ok tt.
Proof.
  intros Hres Hpar Hbetween Hd.
  unfold validate_self. cbn [node].
  unfold Var_validate_self. rewrite Hres, Hpar.
  rewrite Var_scan_expressions
    by (apply expressions_not_VarDef; exact Hbetween).
  cbn [Var_scan]. rewrite Hd.
  destruct (String.eqb declared name); cbn [andb]; [|reflexivity].
  destruct (existsb _ (parents d)); reflexivity.
Qed.

(** C8.  The check on a variable reference, for a name that is not a
    reserved word.  When the reference lies inside the initializer
    expression of a [VarDef] (only expression nodes in between), it is
    rejected with "Can't read local variable in its own initializer."
    exactly when that [VarDef] declares the same name and has a block among
    its ancestors; at top level, or under a [VarDef] of another name, it
    is accepted, as is a reference under no [VarDef] at all.  A program
    that holds such a reference in a nested [VarDef] of the same name does
    not pass validation.  Through the whole pass: [{ var x = x; }] is
    rejected with that message, while [var x = x;] and
    [var x = 1; { var y = x; }] pass. *)
Theorem own_initializer_check :
  (forall (name declared : string) (init : Expr) (parent : option Cursor)
          (between : list Cursor) (d : Cursor),
     reserved name = false ->
     parents (mkCursor (NExpr (Var name)) parent)
     = (between ++ d :: parents d)%list ->
     forallb (fun a => is_expression (node a)) between = true ->
     node d = NStmt (VarDef declared init) ->
     validate_self (mkCursor (NExpr (Var name)) parent)
     = if String.eqb declared name &&
          existsb (fun a => is_Block (node a)) (parents d)
       then Raise (SemanticError
                     "Can't read local variable in its own initializer."
                     (Some name))
       else Ok tt) /\
  (forall (p : Program) (name : string) (init : Expr)
          (parent : option Cursor) (between : list Cursor) (d : Cursor),
     visited (mkCursor (NProgram p) None)
             (mkCursor (NExpr (Var name)) parent) ->
     parents (mkCursor (NExpr (Var name)) parent)
     = (between ++ d :: parents d)%list ->
     forallb (fun a => is_expression (node a)) between = true ->
     node d = NStmt (VarDef name init) ->
     existsb (fun a => is_Block (node a)) (parents d) = true ->
     validate_program p <> Ok tt) /\
  (forall (name : string) (parent : option Cursor),
     reserved name = false ->
     forallb (fun a => negb (is_VarDef (node a)))
             (parents (mkCursor (NExpr (Var name)) parent)) = true ->
     validate_self (mkCursor (NExpr (Var name)) parent) = Ok tt) /\
  validate_program (MkProgram [Block [VarDef "x" (Var "x")]])
  = Raise (SemanticError "Can't read local variable in its own initializer."
                         (Some "x")) /\
  validate_program (MkProgram [VarDef "x" (Var "x")]) = Ok tt /\
  validate_program
    (MkProgram [VarDef "x" (numeral 1); Block [VarDef "y" (Var "x")]])
  = Ok tt.
Proof.
  split; [|split; [|split; [|split; [|split]]]].
  - apply Var_under_VarDef.
  - intros p name init parent between d Hv Hpar Hbetween Hd Hblock Hp.
    pose proof (validation_visits_all p _ Hp Hv) as Hself.
    destruct (reserved name) eqn:Hres.
    + unfold validate_self in Hself. cbn [node] in Hself.
      unfold Var_validate_self in Hself. rewrite Hres in Hself.
      discriminate Hself.
    + rewrite (Var_under_VarDef name name init parent between d
                                Hres Hpar Hbetween Hd) in Hself.
      rewrite String.eqb_refl, Hblock in Hself. discriminate Hself.
  - intros name parent Hres Hnone.
    unfold validate_self. cbn [node].
    unfold Var_validate_self. rewrite Hres.
    apply Var_scan_no_VarDef. exact Hnone.
  - vm_compute. reflexivity.
  - vm_compute. reflexivity.
  - vm_compute. reflexivity.
Qed.

(** The reference [x] in [{ var x = x + 1; }], under one operator node:
    the check rejects it, and the program does not pass validation. *)
Lemma own_initializer_check_witness :
  validate_self (mkCursor (NExpr (Var "x")) (Some own_init_operator))
  = Raise (SemanticError "Can't read local variable in its own initializer."
                         (Some "x")) /\
  validate_program (MkProgram [Block [VarDef "x" own_init]]) <> Ok tt.
Proof.
  split.
  - apply (proj1 own_initializer_check "x" "x" own_init
                 (Some own_init_operator) [own_init_operator]
                 own_init_VarDef).
    + vm_compute. reflexivity.
    + reflexivity.
    + reflexivity.
    + reflexivity.
  - apply (proj1 (proj2 own_initializer_check)
                 (MkProgram [Block [VarDef "x" own_init]]) "x" own_init
                 (Some own_init_operator) [own_init_operator]
                 own_init_VarDef).
    + repeat (apply visited_child; [| simpl; auto]). apply visited_top.
    + reflexivity.
    + reflexivity.
    + reflexivity.
    + reflexivity.
Defined.

(** Other shapes of the same situation. *)
Example own_initializer_examples :
  validate_program
    (MkProgram [Block [VarDef "x" (BinOp (Var "x") (numeral 1) OpAdd)]])
  = Raise (SemanticError "Can't read local variable in its own initializer."
                         (Some "x")) /\
  validate_program
    (MkProgram [Function "f" [] (Block [VarDef "x" (Var "x")])])
  = Raise (SemanticError "Can't read local variable in its own initializer."
                         (Some "x")) /\
  validate_program
    (MkProgram [Block [VarDef "x" (numeral 1); VarDef "y" (Var "x")]])
  = Ok tt.
Proof. vm_compute. repeat split; reflexivity. Qed.

(** ** Calling a class *)

Lemma get_method_undefined (name : string) :
  forall c : LoxClass,
    defines c name = false ->
    get_method c name = Raise (LoxError ("Undefined method '" ++ name ++ "'.")).
Proof.
  fix IH 1. intros [n ms b]. simpl.
  destruct (ms !! name); [discriminate|].
  destruct b as [b' |]; [apply IH | reflexivity].
Qed.

Lemma get_method_defined (name : string) :
  forall (c : LoxClass) (f : LoxFunction),
    get_method c name = Ok f -> defines c name = true.
Proof.
  fix IH 1. intros [n ms b] f. simpl.
  destruct (ms !! name); [reflexivity|].
  destruct b as [b' |]; [apply IH | discriminate].
Qed.

Lemma LoxClass_call_unfold (ev : Stmt -> Ctx -> M unit) (cls : LoxClass)
      (args : list Value) (s : State) :
  LoxClass_call ev cls args s =
  match init_attempt ev cls (fresh_instance s cls) args
                     (with_instance s cls) with
  | (Ok _, s') => (Ok (VInstance (fresh_instance s cls)), s')
  | (Raise (LoxError m), s') =>
    match args with
    | [] => (Ok (VInstance (fresh_instance s cls)), s')
    | _ :: _ => (Raise (LoxError (arity_message 0 (length args))), s')
    end
  | (Raise e, s') => (Raise e, s')
  end.
Proof.
  unfold LoxClass_call, bind at 1. unfold new_instance at 1.
  fold (fresh_instance s cls). fold (with_instance s cls).
  unfold bind at 1. unfold try_except.
  destruct (init_attempt ev cls (fresh_instance s cls) args
                         (with_instance s cls))
    as [[u | e] s'].
  - reflexivity.
  - destruct e; try reflexivity. simpl. destruct args; reflexivity.
Qed.

Lemma init_attempt_no_init (ev : Stmt -> Ctx -> M unit) (cls : LoxClass)
      (i : LoxInstance) (args : list Value) (s : State) :
  defines cls "init" = false ->
  init_attempt ev cls i args s
  = (Raise (LoxError "Undefined method 'init'."), s).
Proof.
  intros H. unfold init_attempt, bind, lift.
  rewrite (get_method_undefined "init" cls H). reflexivity.
Qed.

(** C2.  A class with no [init] method anywhere in its inheritance chain:
    called with no argument it returns the new instance; called with N > 0
    arguments it fails with "Expected 0 arguments but got N.".  And for any
    class, when the call completes without a fault its result is the
    instance it has just constructed. *)
Theorem class_without_init (fuel : nat) (cls : LoxClass)
        (args : list Value) (s : State) :
  (defines cls "init" = false ->
   call (eval_stmt fuel) (VClass cls) [] s
   = (Ok (VInstance (fresh_instance s cls)), with_instance s cls) /\
   (args <> [] ->
    call (eval_stmt fuel) (VClass cls) args s
    = (Raise (LoxError ("Expected 0 arguments but got " ++
                        pretty (length args) ++ ".")),
       with_instance s cls))) /\
  (forall v s',
     call (eval_stmt fuel) (VClass cls) args s = (Ok v, s') ->
     v = VInstance (fresh_instance s cls)).
Proof.
  split.
  - intros Hno. split.
    + cbn [call]. rewrite LoxClass_call_unfold.
      rewrite init_attempt_no_init by exact Hno. reflexivity.
    + intros Hargs. cbn [call]. rewrite LoxClass_call_unfold.
      rewrite init_attempt_no_init by exact Hno.
      destruct args; [contradiction|reflexivity].
  - intros v s'. cbn [call]. rewrite LoxClass_call_unfold.
    destruct (init_attempt _ _ _ _ _) as [[u | e] s2].
    + intros [= <- _]. reflexivity.
    + destruct e; try discriminate.
      destruct args; [|discriminate]. intros [= <- _]. reflexivity.
Qed.

Lemma class_without_init_witness :
  call (eval_stmt 0) (VClass class_A) [] initial
  = (Ok (VInstance (fresh_instance initial class_A)),
     with_instance initial class_A)
  /\
  call (eval_stmt 0) (VClass class_A) [VNil] initial
  = (Raise (LoxError "Expected 0 arguments but got 1."),
     with_instance initial class_A).
Proof.
  destruct (proj1 (class_without_init 0 class_A [VNil] initial) eq_refl)
    as [H0 H1].
  split; [exact H0 | apply H1; discriminate].
Defined.

(** Through the evaluator: [class A {} print A(); A(1, 2);] *)
Example class_without_init_program :
  let p := MkProgram
    [Class "A" [] None;
     Print (Call (Var "A") []);
     ExprStmt (Call (Var "A") [numeral 1; numeral 2])] in
  fst (run 8 p) = Raise (LoxError "Expected 0 arguments but got 2.") /\
  output (snd (run 8 p)) = ["A instance"].
Proof. vm_compute. split; reflexivity. Qed.

Lemma init_attempt_invocation (ev : Stmt -> Ctx -> M unit) (cls : LoxClass)
      (f : LoxFunction) (args : list Value) (s : State) :
  get_method cls "init" = Ok f ->
  init_attempt ev cls (fresh_instance s cls) args (with_instance s cls)
  = match init_invocation ev cls f args s with
    | (Ok _, s') => (Ok tt, s')
    | (Raise e, s') => (Raise e, s')
    end.
Proof.
  intros H. unfold init_attempt, init_invocation.
  unfold bind at 1, lift. rewrite H.
  unfold bind at 3. unfold new_instance.
  fold (fresh_instance s cls). fold (with_instance s cls).
  unfold bind at 1. unfold bind at 2.
  destruct (bind_this f (VInstance (fresh_instance s cls))
                      (with_instance s cls))
    as [[b | e] s1]; [|reflexivity].
  unfold bind. destruct (LoxFunction_call ev b args s1) as [[v | e] s2];
    reflexivity.
Qed.



(** An error raised inside the body of [init] is dropped as well, after the
    effects that precede it; an undefined variable, which is not a Lox
    runtime error, is not. *)
Example init_body_error_program :
  let faulty := BinOp (numeral 1) (Literal (LStr "a")) OpAdd in
  let p := MkProgram
    [Class "Q"
       [Function "init" []
          (Block [Print (Literal (LStr "in"));
                  ExprStmt (Setattr This "x" faulty);
                  Print (Literal (LStr "out"))])] None;
     Print (Call (Var "Q") [])] in
  let q := MkProgram
    [Class "Q"
       [Function "init" [] (Block [Print (Var "y")])] None;
     Print (Call (Var "Q") [])] in
  fst (run 12 p) = Ok tt /\
  output (snd (run 12 p)) = ["in"; "Q instance"] /\
  fst (run 12 q) = Raise (NameError "variável y não existe!").
Proof. vm_compute. repeat split; reflexivity. Qed.

Lemma init_invocation_arity (ev : Stmt -> Ctx -> M unit) (cls : LoxClass)
      (f : LoxFunction) (args : list Value) (s : State) :
  length args <> length (fn_params f) ->
  fst (init_invocation ev cls f args s)
  = Raise (LoxError (arity_message (length (fn_params f)) (length args))).
Proof.
  intros H. apply Nat.eqb_neq in H.
  unfold init_invocation, bind, new_instance, bind_this, bind, push, ret.
  cbn -[Nat.eqb arity_message]. unfold LoxFunction_call.
  cbn -[Nat.eqb arity_message]. rewrite H. reflexivity.
Qed.

(** C1.  What a class with an [init] method does when the number of
    arguments differs from the number of parameters of [init].  With no
    argument the call does not fail: it returns the new instance.  With
    N > 0 arguments it fails with "Expected 0 arguments but got N.", which
    reports 0 and not the parameter count of [init].  For
    [class P { init(x) { this.x = x; } }]: [P()] yields an instance,
    [P(1, 2)] fails with "Expected 0 arguments but got 2.", and [P(1)]
    succeeds with [.x] reading 1. *)
Theorem class_call_arity_mismatch :
  (forall (fuel : nat) (cls : LoxClass) (init_method : LoxFunction)
          (args : list Value) (s : State),
     get_method cls "init" = Ok init_method ->
     length args <> length (fn_params init_method) ->
     fst (call (eval_stmt fuel) (VClass cls) args s)
     = match args with
       | [] => Ok (VInstance (fresh_instance s cls))
       | _ :: _ => Raise (LoxError (arity_message 0 (length args)))
       end) /\
  (let p := MkProgram [class_P_decl; Print (Call (Var "P") [])] in
   fst (run 8 p) = Ok tt /\
   output (snd (run 8 p)) = ["P instance"]) /\
  (let p := MkProgram
              [class_P_decl;
               Print (Call (Var "P") [numeral 1; numeral 2])] in
   fst (run 8 p) = Raise (LoxError "Expected 0 arguments but got 2.")) /\
  (let p := MkProgram
              [class_P_decl;
               Print (Getattr (Call (Var "P") [numeral 1]) "x")] in
   fst (run 12 p) = Ok tt /\ output (snd (run 12 p)) = ["1"]).
Proof.
  split; [|split; [|split]].
  - intros fuel cls f args s Hget Hlen. cbn [call].
    rewrite LoxClass_call_unfold.
    rewrite (init_attempt_invocation _ _ _ _ _ Hget).
    pose proof (init_invocation_arity (eval_stmt fuel) cls f args s Hlen)
      as Hinv.
    destruct (init_invocation (eval_stmt fuel) cls f args s)
      as [[v | e] s']; simpl in Hinv; [discriminate|].
    injection Hinv as ->. destruct args; reflexivity.
  - vm_compute. split; reflexivity.
  - vm_compute. reflexivity.
  - vm_compute. split; reflexivity.
Qed.

Lemma class_call_arity_mismatch_witness :
  fst (call (eval_stmt 5) (VClass class_P) [VNil; VNil] initial)
  = Raise (LoxError "Expected 0 arguments but got 2.").
Proof.
  apply (proj1 class_call_arity_mismatch 5%nat class_P
               init_P
               [VNil; VNil] initial).
  - reflexivity.
  - simpl. lia.
Defined.

(** ** Semantic errors during evaluation *)

Lemma class_declaration_error (n : nat) (name sname : string)
      (methods : list Stmt) (ctx : Ctx) (s : State) (v : Value) :
  find (frames s) ctx sname = Some v ->
  type v <> TLoxClass ->
  eval_stmt (S n) (Class name methods (Some sname)) ctx s
  = (Raise (SemanticError "Superclass must be a class." None), s).
Proof.
  intros Hfind Htype. cbn [eval_stmt].
  unfold bind at 1. unfold bind at 1. unfold lookup. rewrite Hfind.
  destruct v; try reflexivity. contradiction Htype. reflexivity.
Qed.

Lemma method_table_error (defs : list Stmt) (ctx : Ctx) (e : Exn) :
  forall acc,
    method_table defs ctx acc = Raise e ->
    e = AttributeError "no such attribute".
Proof.
  induction defs as [| d defs IH]; intros acc; simpl; [discriminate|].
  destruct d; try (intros [= <-]; reflexivity). apply IH.
Qed.

Lemma class_declaration_no_error (n : nat) (name : string)
      (methods : list Stmt) (superclass : option string) (ctx : Ctx)
      (s s' : State) (msg : string) (token : option string) :
  eval_stmt (S n) (Class name methods superclass) ctx s
  = (Raise (SemanticError msg token), s') ->
  exists sname v, superclass = Some sname /\
                  find (frames s) ctx sname = Some v /\
                  type v <> TLoxClass.
Proof.
  cbn [eval_stmt]. intros H. destruct superclass as [sname |].
  - unfold bind at 1 in H. unfold bind at 1, lookup at 1 in H.
    destruct (find (frames s) ctx sname) as [v |] eqn:Hfind;
      [|discriminate H].
    exists sname, v. split; [reflexivity|]. split; [exact Hfind|].
    destruct v; try discriminate. exfalso.
    cbv [bind ret lift push] in H.
    destruct (method_table _ _ _) as [ms | e] eqn:Hm.
    + destruct ctx; discriminate H.
    + apply method_table_error in Hm. subst e. discriminate H.
  - exfalso. cbv [bind ret lift] in H.
    destruct (method_table _ _ _) as [ms | e] eqn:Hm.
    + destruct ctx; discriminate H.
    + apply method_table_error in Hm. subst e. discriminate H.
Qed.

(** C4, as the code has it.  Semantic errors are not raised by the
    validation pass alone: evaluating a class declaration raises one, with
    the message "Superclass must be a class." and no token, exactly when
    the declaration names a superclass and that name resolves to a value
    that is not a class.  The error leaves the store as it was, so the
    output written before it stays. *)
Theorem semantic_error_in_evaluation :
  (forall n name sname methods ctx s v,
     find (frames s) ctx sname = Some v ->
     type v <> TLoxClass ->
     eval_stmt (S n) (Class name methods (Some sname)) ctx s
     = (Raise (SemanticError "Superclass must be a class." None), s)) /\
  (forall n name methods superclass ctx s s' msg token,
     eval_stmt (S n) (Class name methods superclass) ctx s
     = (Raise (SemanticError msg token), s') ->
     msg = "Superclass must be a class." /\ token = None /\ s' = s /\
     exists sname v, superclass = Some sname /\
                     find (frames s) ctx sname = Some v /\
                     type v <> TLoxClass).
Proof.
  split.
  - intros. apply class_declaration_error with (v := v); assumption.
  - intros n name methods superclass ctx s s' msg token H.
    destruct (class_declaration_no_error _ _ _ _ _ _ _ _ _ H)
      as [sname [v [-> [Hfind Hty]]]].
    rewrite (class_declaration_error n name sname methods ctx s v
                                     Hfind Hty) in H.
    injection H as <- <- <-.
    repeat split. exists sname, v. repeat split; assumption.
Qed.

Lemma semantic_error_in_evaluation_witness :
  eval_stmt 1 (Class "C" [] (Some "S")) root
            {| frames := [{["S" := VNil]}]; objects := []; serial := 0;
               output := ["1"] |}
  = (Raise (SemanticError "Superclass must be a class." None),
     {| frames := [{["S" := VNil]}]; objects := []; serial := 0;
        output := ["1"] |}).
Proof.
  apply (proj1 semantic_error_in_evaluation
               0%nat "C" "S" [] root _ VNil).
  - reflexivity.
  - discriminate.
Defined.

(** C4, as stated: a program that passes validation, prints, and then
    raises a semantic error while it is evaluated. *)
Lemma semantic_error_after_output :
  validate_program superclass_not_class = Ok tt /\
  fst (run 5 superclass_not_class)
  = Raise (SemanticError "Superclass must be a class." None) /\
  output (snd (run 5 superclass_not_class)) = ["1"] /\
  ~ (forall fuel p e s,
       run fuel p = (Raise e, s) ->
       match e with SemanticError _ _ => output s = [] | _ => True end).
Proof.
  split; [vm_compute; reflexivity|].
  split; [vm_compute; reflexivity|].
  split; [vm_compute; reflexivity|].
  intros H.
  specialize (H 5%nat superclass_not_class
                (SemanticError "Superclass must be a class." None)
                (snd (run 5 superclass_not_class))).
  assert (E : output (snd (run 5 superclass_not_class)) = []).
  { apply H. vm_compute. reflexivity. }
  vm_compute in E. discriminate E.
Qed.

(** * Further properties *)

Import Transformer Laws.

(** ** The arithmetic operators *)

Lemma host_arith_no_lox_error fz ff (a b : num) (msg : string) :
  host_arith fz ff a b <> Raise (LoxError msg).
Proof.
  destruct a as [m | x], b as [n | y]; simpl; try discriminate;
    unfold float_of_int; destruct (Float64.of_Z _); discriminate.
Qed.

(** X1.  Addition, subtraction and multiplication fail with their Lox
    error exactly when the operands are not acceptable: addition unless
    both are strings or both are numbers, the two others unless both are
    numbers; a boolean is never acceptable.  Two strings are
    concatenated. *)
Theorem arithmetic_rejections (l r : Value) :
  (add l r = Raise (LoxError "Operands must be two numbers or two strings.")
   <-> (is_string l && is_string r) || (is_number l && is_number r) = false)
  /\
  (sub l r = Raise (LoxError "Operands must be numbers.")
   <-> is_number l && is_number r = false) /\
  (mul l r = Raise (LoxError "Operands must be numbers.")
   <-> is_number l && is_number r = false) /\
  (forall a b, l = VStr a -> r = VStr b -> add l r = Ok (VStr (a ++ b))).
Proof.
  split; [|split; [|split]].
  - split.
    + intros E.
      destruct ((is_string l && is_string r) || (is_number l && is_number r))
        eqn:N; [|reflexivity].
      exfalso. destruct l, r; simpl in N; try discriminate N;
        try discriminate E;
        exact (host_arith_no_lox_error _ _ _ _ _ E).
    + destruct l, r; simpl; intros H; try discriminate H; reflexivity.
  - split.
    + intros E. destruct (is_number l && is_number r) eqn:N; [|reflexivity].
      exfalso. destruct l, r; simpl in N; try discriminate N;
        exact (host_arith_no_lox_error _ _ _ _ _ E).
    + destruct l, r; simpl; intros H; try discriminate H; reflexivity.
  - split.
    + intros E. destruct (is_number l && is_number r) eqn:N; [|reflexivity].
      exfalso. destruct l, r; simpl in N; try discriminate N;
        exact (host_arith_no_lox_error _ _ _ _ _ E).
    + destruct l, r; simpl; intros H; try discriminate H; reflexivity.
  - intros a b -> ->. reflexivity.
Qed.

Lemma arithmetic_rejections_witness :
  add (VStr "foo") (VStr "bar") = Ok (VStr "foobar") /\
  add (VStr "foo") (number 1 0)
  = Raise (LoxError "Operands must be two numbers or two strings.").
Proof.
  split.
  - apply (proj2 (proj2 (proj2 (arithmetic_rejections
                                  (VStr "foo") (VStr "bar"))))
                 "foo" "bar"); reflexivity.
  - apply (proj1 (arithmetic_rejections (VStr "foo") (number 1 0))).
    reflexivity.
Defined.

Lemma SFadd_comm (x y : Float64.t) : Float64.add x y = Float64.add y x.
Proof.
  unfold Float64.add.
  destruct x as [sx | sx | | sx mx ex], y as [sy | sy | | sy my ey];
    try reflexivity;
    try (destruct sx, sy; reflexivity).
  cbn [SFadd]. rewrite (Z.min_comm ey ex). f_equal. apply Z.add_comm.
Qed.

Lemma SFmul_comm (x y : Float64.t) : Float64.mul x y = Float64.mul y x.
Proof.
  unfold Float64.mul.
  destruct x as [sx | sx | | sx mx ex], y as [sy | sy | | sy my ey];
    try reflexivity;
    try (destruct sx, sy; reflexivity).
  cbn [SFmul]. rewrite (xorb_comm sy sx), (Pos.mul_comm my mx),
                 (Z.add_comm ey ex). reflexivity.
Qed.

Lemma host_arith_comm fz ff (a b : num) :
  (forall m n, fz m n = fz n m) ->
  (forall x y, ff x y = ff y x) ->
  host_arith fz ff a b = host_arith fz ff b a.
Proof.
  intros Hz Hf. destruct a as [m | x], b as [n | y]; simpl.
  - rewrite Hz. reflexivity.
  - destruct (float_of_int m); [rewrite Hf|]; reflexivity.
  - destruct (float_of_int n); [rewrite Hf|]; reflexivity.
  - rewrite Hf. reflexivity.
Qed.

(** X2.  Multiplication gives the same outcome, value or error, with its
    operands exchanged, and so does addition unless both operands are
    strings. *)
Theorem addition_multiplication_commute (l r : Value) :
  mul l r = mul r l /\
  (is_string l && is_string r = false -> add l r = add r l).
Proof.
  split.
  - unfold mul. rewrite (orb_comm (isinstance_bool r)).
    destruct (isinstance_bool l || isinstance_bool r); [reflexivity|].
    destruct (as_num l), (as_num r); try reflexivity.
    apply host_arith_comm; [apply Z.mul_comm | apply SFmul_comm].
  - intros Hs. unfold add. rewrite (orb_comm (isinstance_bool r)).
    destruct (isinstance_bool l || isinstance_bool r); [reflexivity|].
    destruct l, r; try discriminate Hs; cbn [as_num]; try reflexivity;
      apply host_arith_comm;
      first [apply Z.add_comm | apply SFadd_comm].
Qed.

Lemma addition_multiplication_commute_witness :
  add (number 1 0) (VInt 2) = add (VInt 2) (number 1 0).
Proof.
  apply (proj2 (addition_multiplication_commute (number 1 0) (VInt 2))).
  reflexivity.
Defined.

(** ** The relational operators *)

Lemma SFcompare_flip (x y : Float64.t) :
  SFcompare y x = option_map CompOpp (SFcompare x y).
Proof.
  destruct x as [sx | sx | | sx mx ex], y as [sy | sy | | sy my ey];
    try reflexivity;
    try (destruct sx; reflexivity);
    try (destruct sy; reflexivity);
    try (destruct sx, sy; reflexivity).
  cbn [SFcompare option_map]. f_equal.
  destruct sx, sy; try reflexivity;
    rewrite (Z.compare_antisym ex ey);
    destruct (ex ?= ey); cbn [CompOpp]; try reflexivity;
    change (Pos.compare_cont Eq my mx) with (Pos.compare my mx);
    change (Pos.compare_cont Eq mx my) with (Pos.compare mx my);
    rewrite (Pos.compare_antisym mx my);
    destruct (Pos.compare mx my); reflexivity.
Qed.

Lemma CompOpp_twice (o : option comparison) :
  option_map CompOpp (option_map CompOpp o) = o.
Proof. destruct o as [[| |] |]; reflexivity. Qed.

Lemma host_compare_flip (a b : num) :
  host_compare b a = option_map CompOpp (host_compare a b).
Proof.
  destruct a as [m | x], b as [n | y]; simpl.
  - rewrite (Z.compare_antisym m n). reflexivity.
  - reflexivity.
  - rewrite CompOpp_twice. reflexivity.
  - apply SFcompare_flip.
Qed.

Lemma relational_flip test test' (l r : Value) :
  (forall c, test' (option_map CompOpp c) = test c) ->
  relational test l r = relational test' r l.
Proof.
  intros H. unfold relational. rewrite (orb_comm (isinstance_bool r)).
  destruct (isinstance_bool l || isinstance_bool r); [reflexivity|].
  destruct (as_num l) as [a |], (as_num r) as [b |]; try reflexivity.
  rewrite (host_compare_flip a b), H. reflexivity.
Qed.

Lemma SFcompare_ordered (x y : Float64.t) :
  is_nan x = false -> is_nan y = false -> SFcompare x y <> None.
Proof.
  destruct x as [sx | sx | | sx mx ex], y as [sy | sy | | sy my ey];
    simpl; intros Hx Hy; discriminate.
Qed.

Lemma SFcompare_nan (x y : Float64.t) :
  is_nan x || is_nan y = true -> SFcompare x y = None.
Proof.
  destruct x as [sx | sx | | sx mx ex], y as [sy | sy | | sy my ey];
    simpl; intros H; try discriminate H; reflexivity.
Qed.

(** X3.  [l < r] is [r > l] and [l <= r] is [r >= l], errors included.
    On two doubles, [>=] is [>] or [==], and [<=] is [<] or [==]; when
    neither is NaN, [<] is the negation of [>=]; when one is NaN, all four
    comparisons answer false. *)
Theorem relational_laws :
  (forall l r, lt l r = gt r l /\ le l r = ge r l) /\
  (forall x y,
     holds (ge (VNum x) (VNum y))
     = holds (gt (VNum x) (VNum y)) || Runtime.eq (VNum x) (VNum y) /\
     holds (le (VNum x) (VNum y))
     = holds (lt (VNum x) (VNum y)) || Runtime.eq (VNum x) (VNum y)) /\
  (forall x y,
     is_nan x = false -> is_nan y = false ->
     holds (lt (VNum x) (VNum y)) = negb (holds (ge (VNum x) (VNum y)))) /\
  (forall x y,
     is_nan x || is_nan y = true ->
     gt (VNum x) (VNum y) = Ok false /\ ge (VNum x) (VNum y) = Ok false /\
     lt (VNum x) (VNum y) = Ok false /\ le (VNum x) (VNum y) = Ok false).
Proof.
  split; [|split; [|split]].
  - intros l r. split; apply relational_flip;
      intros [[| |] |]; reflexivity.
  - intros x y. unfold ge, gt, le, lt, relational, Runtime.eq.
    cbn. unfold Float64.eqb, SFeqb.
    destruct (SFcompare x y) as [[| |] |]; split; reflexivity.
  - intros x y Hx Hy. unfold ge, lt, relational. cbn.
    pose proof (SFcompare_ordered x y Hx Hy) as H.
    destruct (SFcompare x y) as [[| |] |]; try reflexivity.
    contradiction H. reflexivity.
  - intros x y H. unfold ge, gt, le, lt, relational. cbn.
    rewrite (SFcompare_nan x y H). repeat split; reflexivity.
Qed.

Lemma relational_laws_witness :
  holds (lt (number 1 0) (number 2 0))
  = negb (holds (ge (number 1 0) (number 2 0))) /\
  gt (VNum Float64.nan) (number 1 0) = Ok false.
Proof.
  split.
  - apply (proj1 (proj2 (proj2 relational_laws))); reflexivity.
  - apply (proj2 (proj2 (proj2 relational_laws)) Float64.nan
                 (Float64.of_decimal 1 0)). reflexivity.
Defined.

(** ** Negation and equality *)

Lemma SFopp_involutive (x : Float64.t) : Float64.opp (Float64.opp x) = x.
Proof. destruct x as [s | s | | s m e]; simpl; rewrite ?negb_involutive; reflexivity. Qed.

(** X4.  Negating a number twice gives the number back; negating a boolean
    twice gives the integer 1 or 0, not the boolean. *)
Theorem negation_twice :
  (forall v, is_number v = true ->
             exists w, neg v = Ok w /\ neg w = Ok v) /\
  (forall b, exists w, neg (VBool b) = Ok w /\
                       neg w = Ok (VInt (if b then 1 else 0))).
Proof.
  split.
  - intros v Hv. destruct v; try discriminate Hv.
    + eexists. split; [reflexivity|]. simpl. rewrite SFopp_involutive.
      reflexivity.
    + eexists. split; [reflexivity|]. simpl. rewrite Z.opp_involutive.
      reflexivity.
  - intros b. eexists. split; [reflexivity|]. destruct b; reflexivity.
Qed.

Lemma negation_twice_witness :
  exists w, neg (number 35 (-1)) = Ok w /\ neg w = Ok (number 35 (-1)).
Proof.
  apply (proj1 negation_twice). reflexivity.
Defined.

Lemma SFeqb_sym (x y : Float64.t) : Float64.eqb x y = Float64.eqb y x.
Proof.
  unfold Float64.eqb, SFeqb. rewrite (SFcompare_flip x y).
  destruct (SFcompare x y) as [[| |] |]; reflexivity.
Qed.

Lemma bool_eqb_sym (a b : bool) : Bool.eqb a b = Bool.eqb b a.
Proof. destruct a, b; reflexivity. Qed.

Lemma binop_eqb_sym (a b : binop) : binop_eqb a b = binop_eqb b a.
Proof. destruct a, b; reflexivity. Qed.

Lemma unop_eqb_sym (a b : unop) : unop_eqb a b = unop_eqb b a.
Proof. destruct a, b; reflexivity. Qed.

Lemma lit_eqb_sym (a b : lit) : lit_eqb a b = lit_eqb b a.
Proof.
  destruct a, b; simpl; try reflexivity;
    first [apply bool_eqb_sym | apply SFeqb_sym | apply String.eqb_sym].
Qed.

Lemma list_eqb_sym {A} (f : A -> A -> bool) (a : list A) :
  (forall x y, f x y = f y x) ->
  forall b, list_eqb f a b = list_eqb f b a.
Proof.
  intros Hf. induction a as [| x a IH]; intros [| y b]; simpl;
    try reflexivity.
  rewrite (Hf x y), (IH b). reflexivity.
Qed.

Lemma option_eqb_sym {A} (f : A -> A -> bool) (a b : option A) :
  (forall x y, f x y = f y x) -> option_eqb f a b = option_eqb f b a.
Proof. intros Hf. destruct a, b; simpl; auto. Qed.

Ltac sym_fields IH :=
  repeat (apply (f_equal2 andb));
  first [ apply IH | apply binop_eqb_sym | apply unop_eqb_sym
        | apply String.eqb_sym | apply lit_eqb_sym | reflexivity ].

Lemma Expr_eqb_sym : forall a b : Expr, Expr_eqb a b = Expr_eqb b a.
Proof.
  fix IH 1. intros a b.
  destruct a as [l1 r1 o1 | n1 | v1 | l1 r1 | l1 r1 | e1 o1 | f1 p1 |
                 | m1 | n1 v1 | v1 a1 | v1 a1 e1],
           b as [l2 r2 o2 | n2 | v2 | l2 r2 | l2 r2 | e2 o2 | f2 p2 |
                 | m2 | n2 v2 | v2 a2 | v2 a2 e2];
    cbn [Expr_eqb]; try reflexivity; try (sym_fields IH).
  apply (f_equal2 andb); [apply IH|].
  revert p2. induction p1 as [| x p1 IHp]; intros [| y p2];
    try reflexivity.
  apply (f_equal2 andb); [apply IH | apply IHp].
Qed.

Lemma Stmt_eqb_sym : forall a b : Stmt, Stmt_eqb a b = Stmt_eqb b a.
Proof.
  fix IH 1. intros a b.
  destruct a as [e1 | e1 | [e1 |] | n1 e1 | c1 t1 [f1 |] | c1 b1 | s1
                 | n1 p1 b1 | n1 m1 s1],
           b as [e2 | e2 | [e2 |] | n2 e2 | c2 t2 [f2 |] | c2 b2 | s2
                 | n2 p2 b2 | n2 m2 s2];
    cbn [Stmt_eqb option_eqb]; try reflexivity;
    repeat (apply (f_equal2 andb));
    try first [ apply IH | apply Expr_eqb_sym | apply String.eqb_sym
              | apply (list_eqb_sym String.eqb); apply String.eqb_sym
              | apply (option_eqb_sym String.eqb); apply String.eqb_sym
              | reflexivity ].
  - revert s2. induction s1 as [| x s1 IHs]; intros [| y s2];
      try reflexivity.
    apply (f_equal2 andb); [apply IH | apply IHs].
  - revert m2. induction m1 as [| x m1 IHs]; intros [| y m2];
      try reflexivity.
    apply (f_equal2 andb); [apply IH | apply IHs].
Qed.

Lemma LoxFunction_eqb_sym (f g : LoxFunction) :
  LoxFunction_eqb f g = LoxFunction_eqb g f.
Proof.
  unfold LoxFunction_eqb.
  rewrite (String.eqb_sym (fn_name f)),
          (list_eqb_sym String.eqb (fn_params f) String.eqb_sym),
          (Stmt_eqb_sym (fn_body f)),
          (list_eqb_sym Nat.eqb (fn_ctx f) Nat.eqb_sym).
  reflexivity.
Qed.

Lemma methods_eqb_sym (m1 m2 : gmap string LoxFunction) :
  methods_eqb m1 m2 = methods_eqb m2 m1.
Proof.
  unfold methods_eqb. apply list_eqb_sym. intros p q.
  rewrite (String.eqb_sym (fst p)), (LoxFunction_eqb_sym (snd p)).
  reflexivity.
Qed.

Lemma LoxClass_eqb_sym : forall c d : LoxClass,
    LoxClass_eqb c d = LoxClass_eqb d c.
Proof.
  fix IH 1. intros [n1 m1 b1] [n2 m2 b2]. cbn [LoxClass_eqb].
  rewrite (String.eqb_sym n1), (methods_eqb_sym m1).
  apply (f_equal2 andb); [reflexivity|].
  destruct b1 as [x |], b2 as [y |]; try reflexivity. apply IH.
Qed.

Lemma pytype_eqb_sym (a b : pytype) : pytype_eqb a b = pytype_eqb b a.
Proof. destruct a, b; reflexivity. Qed.

(** X5.  Equality is symmetric: [l == r] and [r == l] give the same
    answer for all values, and so do [l != r] and [r != l]. *)
Theorem equality_symmetric (l r : Value) :
  Runtime.eq l r = Runtime.eq r l /\ ne l r = ne r l.
Proof.
  assert (H : Runtime.eq l r = Runtime.eq r l).
  { unfold Runtime.eq. rewrite (pytype_eqb_sym (type l)).
    destruct (pytype_eqb (type r) (type l)); [|reflexivity].
    cbn [negb]. destruct l, r; cbn [py_eq]; try reflexivity;
      first [ apply bool_eqb_sym | apply SFeqb_sym | apply Z.eqb_sym
            | apply String.eqb_sym | apply LoxFunction_eqb_sym
            | apply LoxClass_eqb_sym | apply Nat.eqb_sym ]. }
  split; [exact H|]. unfold ne. rewrite H. reflexivity.
Qed.

Lemma SFeqb_refl (x : Float64.t) : Float64.eqb x x = negb (is_nan x).
Proof.
  unfold Float64.eqb, SFeqb.
  destruct x as [s | s | | s m e]; try reflexivity.
  - destruct s; reflexivity.
  - cbn [SFcompare is_nan negb]. rewrite Z.compare_refl.
    change (Pos.compare_cont Eq m m) with (Pos.compare m m).
    rewrite Pos.compare_refl. destruct s; reflexivity.
Qed.

(** X6.  A value that is not a function or a class is equal to itself
    unless it is the NaN number.  The result of dividing a number by zero
    is therefore not equal to itself. *)
Theorem equality_reflexive_but_nan :
  (forall v, is_code v = false ->
             Runtime.eq v v = negb (is_nan_value v)) /\
  (forall l r, is_number l = true -> is_zero r = true ->
               exists v, truediv l r = Ok v /\
                         Runtime.eq v v = false /\ ne v v = true).
Proof.
  split.
  - intros v Hv. unfold Runtime.eq.
    destruct v; try discriminate Hv; cbn; try reflexivity.
    + destruct b; reflexivity.
    + apply SFeqb_refl.
    + apply Z.eqb_refl.
    + apply String.eqb_refl.
    + apply Nat.eqb_refl.
    + apply Nat.eqb_refl.
  - intros l r Hl Hz. exists (VNum Float64.nan).
    assert (Hr : is_number r = true)
      by (destruct r; try discriminate Hz; reflexivity).
    destruct (is_number_as_num l Hl) as [Bl [a [Ea _]]].
    destruct (is_number_as_num r Hr) as [Br [b [Eb _]]].
    split; [|split; reflexivity].
    unfold truediv. rewrite Bl, Br, Ea, Eb. simpl.
    rewrite (is_zero_host r b Hz Eb). reflexivity.
Qed.

Lemma equality_reflexive_but_nan_witness :
  Runtime.eq (VStr "a") (VStr "a") = negb (is_nan_value (VStr "a")) /\
  exists v, truediv (number 1 0) (number 0 0) = Ok v /\
            Runtime.eq v v = false /\ ne v v = true.
Proof.
  split.
  - apply (proj1 equality_reflexive_but_nan). reflexivity.
  - apply (proj2 equality_reflexive_but_nan); reflexivity.
Defined.

(** ** Method resolution *)

Lemma get_method_found (name : string) :
  forall (c : LoxClass) (f : LoxFunction),
    get_method c name = Ok f ->
    exists skipped d rest,
      ancestry c = (skipped ++ d :: rest)%list /\
      Forall (lacks name) skipped /\
      cls_methods d !! name = Some f.
Proof.
  fix IH 1. intros [n ms b] f. cbn [get_method ancestry].
  destruct (ms !! name) as [g |] eqn:Hg.
  - intros [= <-]. exists [], (mkLoxClass n ms b). eexists.
    split; [reflexivity|]. split; [constructor | exact Hg].
  - destruct b as [b' |]; [|discriminate].
    intros H. destruct (IH b' f H) as [sk [d [rest [Ha [Hs Hd]]]]].
    exists (mkLoxClass n ms (Some b') :: sk), d, rest.
    split; [cbn [app]; rewrite Ha; reflexivity|].
    split; [constructor; [exact Hg | exact Hs] | exact Hd].
Qed.

Lemma get_method_nearest (name : string) :
  forall (c : LoxClass) (f : LoxFunction) (skipped : list LoxClass)
         (d : LoxClass) (rest : list LoxClass),
    ancestry c = (skipped ++ d :: rest)%list ->
    Forall (lacks name) skipped ->
    cls_methods d !! name = Some f ->
    get_method c name = Ok f.
Proof.
  fix IH 1. intros [n ms b] f skipped d rest Ha Hs Hd.
  cbn [get_method ancestry] in *.
  destruct skipped as [| k sk].
  - injection Ha as <- _. cbn [cls_methods] in Hd. rewrite Hd. reflexivity.
  - injection Ha as <- Ha. inversion Hs as [| ? ? Hk Hsk]; subst.
    unfold lacks in Hk. cbn [cls_methods] in Hk. rewrite Hk.
    destruct b as [b' |].
    + exact (IH b' f sk d rest Ha Hsk Hd).
    + destruct sk; discriminate Ha.
Qed.

Lemma get_method_missing (name : string) :
  forall c : LoxClass,
    Forall (lacks name) (ancestry c) <->
    get_method c name
    = Raise (LoxError ("Undefined method '" ++ name ++ "'.")).
Proof.
  fix IH 1. intros [n ms b]. cbn [get_method ancestry]. split.
  - intros H. inversion H as [| ? ? Hk Hrest]; subst.
    unfold lacks in Hk. cbn [cls_methods] in Hk. rewrite Hk.
    destruct b as [b' |]; [|reflexivity].
    apply (proj1 (IH b')). exact Hrest.
  - destruct (ms !! name) as [g |] eqn:Hg; [discriminate|].
    intros H. constructor; [exact Hg|].
    destruct b as [b' |]; [|constructor].
    apply (proj2 (IH b')). exact H.
Qed.

(** X7.  Method resolution finds the definition of the nearest class of
    the inheritance chain that has a method of that name, so that a class
    overrides what it inherits; it fails with "Undefined method 'name'."
    exactly when no class of the chain has one. *)
Theorem method_resolution (c : LoxClass) (name : string) :
  (forall f,
     get_method c name = Ok f <->
     exists skipped d rest,
       ancestry c = (skipped ++ d :: rest)%list /\
       Forall (lacks name) skipped /\
       cls_methods d !! name = Some f) /\
  (Forall (lacks name) (ancestry c) <->
   get_method c name
   = Raise (LoxError ("Undefined method '" ++ name ++ "'."))).
Proof.
  split.
  - intros f. split.
    + apply get_method_found.
    + intros [sk [d [rest [Ha [Hs Hd]]]]].
      exact (get_method_nearest name c f sk d rest Ha Hs Hd).
  - apply get_method_missing.
Qed.

Lemma method_resolution_witness :
  get_method (mkLoxClass "B" ∅ (Some class_P)) "init" = Ok init_P.
Proof.
  apply (proj2 (proj1 (method_resolution
                         (mkLoxClass "B" ∅ (Some class_P)) "init") init_P)).
  exists [mkLoxClass "B" ∅ (Some class_P)], class_P, [].
  split; [reflexivity|]. split; [|reflexivity].
  constructor; [reflexivity | constructor].
Defined.

(** ** The return signal *)

Section NoReturn.

Lemma nr_ret {A} (a : A) : no_return (ret a).
Proof. intros s v s' H. discriminate H. Qed.

Lemma nr_raise {A} (e : Exn) :
  is_LoxReturn e = false -> no_return (@raise A e).
Proof.
  intros He s v s' H. injection H as -> _. discriminate He.
Qed.

Lemma nr_lift {A} (r : Result A) : no_return_result r -> no_return (lift r).
Proof.
  intros Hr s v s' H. unfold lift in H. injection H as H _.
  exact (Hr v H).
Qed.

Lemma nr_bind {A B} (m : M A) (k : A -> M B) :
  no_return m -> (forall a, no_return (k a)) -> no_return (bind m k).
Proof.
  intros Hm Hk s v s' H. unfold bind in H.
  destruct (m s) as [[a | e] s0] eqn:E.
  - exact (Hk a s0 v s' H).
  - injection H as -> ->. exact (Hm s v s' E).
Qed.

Lemma nr_try {A} (body : M A) (catches : Exn -> bool)
      (handler : Exn -> M A) :
  no_return body ->
  (forall e, catches e = true -> no_return (handler e)) ->
  no_return (try_except body catches handler).
Proof.
  intros Hb Hh s v s' H. unfold try_except in H.
  destruct (body s) as [[a | e] s0] eqn:E; [discriminate H|].
  destruct (catches e) eqn:C.
  - exact (Hh e C s0 v s' H).
  - injection H as -> ->. exact (Hb s v s' E).
Qed.

(** Whatever the body does, the [try] of a call lets no return signal
    through. *)
Lemma nr_run_body (ev : Stmt -> Ctx -> M unit) (body : Stmt) (ctx : Ctx) :
  no_return (run_body ev body ctx).
Proof.
  intros s v s' H. unfold run_body, try_except in H.
  destruct (bind (ev body ctx) (fun _ => ret VNil) s) as [[a | e] s0];
    [discriminate H|].
  destruct e; cbn [is_LoxReturn] in H; discriminate H.
Qed.

Lemma nr_push (ctx : Ctx) (env : gmap string Value) :
  no_return (push ctx env).
Proof. intros s v s' H. discriminate H. Qed.

Lemma nr_get_method (c : LoxClass) (name : string) :
  no_return_result (get_method c name).
Proof.
  revert c. fix IH 1. intros [n ms b] v. cbn [get_method].
  destruct (ms !! name); [discriminate|].
  destruct b as [b' |]; [apply IH | discriminate].
Qed.

Lemma nr_bind_this (f : LoxFunction) (obj : Value) :
  no_return (bind_this f obj).
Proof.
  unfold bind_this. apply nr_bind; [apply nr_push|].
  intros c. apply nr_ret.
Qed.

Lemma nr_LoxFunction_call (ev : Stmt -> Ctx -> M unit) (f : LoxFunction)
      (args : list Value) :
  no_return (LoxFunction_call ev f args).
Proof.
  unfold LoxFunction_call. destruct (negb _).
  - apply nr_raise. reflexivity.
  - apply nr_bind; [apply nr_push|]. intros c. apply nr_run_body.
Qed.

Lemma nr_call (ev : Stmt -> Ctx -> M unit) (func : Value)
      (args : list Value) :
  no_return (call ev func args).
Proof.
  destruct func; cbn [call]; try (apply nr_raise; reflexivity).
  - apply nr_LoxFunction_call.
  - unfold LoxClass_call.
    apply nr_bind; [intros s v s' H; discriminate H|]. intros i.
    apply nr_bind; [|intros _; apply nr_ret].
    apply nr_try.
    + unfold init_attempt.
      apply nr_bind; [apply nr_lift, nr_get_method|]. intros m.
      apply nr_bind; [apply nr_bind_this|]. intros b.
      apply nr_bind; [apply nr_LoxFunction_call|]. intros _.
      apply nr_ret.
    + intros e _. destruct args; [apply nr_ret|].
      apply nr_raise. reflexivity.
  - unfold LoxBoundMethod_call. destruct (negb _).
    + apply nr_raise. reflexivity.
    + apply nr_bind; [apply nr_push|]. intros c. apply nr_run_body.
  - unfold init_wrapper.
    apply nr_bind; [apply nr_bind_this|]. intros b.
    apply nr_bind; [apply nr_LoxFunction_call|]. intros _.
    apply nr_ret.
Qed.

End NoReturn.

(** X8.  The signal raised by a [return] statement never leaves a call:
    calling a function, a class, a bound method or an [init] wrapper does
    not end with that signal, whatever the body does; a body that returns
    [v] makes the call of a function yield [v]. *)
Theorem return_stops_at_call :
  (forall ev func args s v s',
     call ev func args s <> (Raise (LoxReturn v), s')) /\
  (forall ev body ctx s v s',
     ev body ctx s = (Raise (LoxReturn v), s') ->
     run_body ev body ctx s = (Ok v, s')).
Proof.
  split.
  - intros ev func args. apply nr_call.
  - intros ev body ctx s v s' H. unfold run_body, try_except, bind.
    rewrite H. reflexivity.
Qed.

Lemma return_stops_at_call_witness :
  run_body (eval_stmt 3) (Return (Some (numeral 1))) root initial
  = (Ok (number 1 0), initial).
Proof.
  apply (proj2 return_stops_at_call). reflexivity.
Defined.

(** ** Instances: attributes and methods *)

Lemma getattr_field (i : LoxInstance) (attr : string) (s : State)
      (v : Value) :
  host_name attr = false ->
  field_of s i attr = Some v ->
  getattr (VInstance i) attr s = (Ok v, s).
Proof.
  intros Hh H. cbn [getattr]. rewrite Hh. unfold bind, get_field.
  unfold field_of in H. rewrite H. reflexivity.
Qed.

Lemma getattr_method (i : LoxInstance) (attr : string) (s : State) :
  host_name attr = false ->
  field_of s i attr = None ->
  getattr (VInstance i) attr s = LoxInstance_getattr i attr s.
Proof.
  intros Hh H. cbn [getattr]. rewrite Hh. unfold bind, get_field.
  unfold field_of in H. rewrite H. reflexivity.
Qed.

Lemma field_of_with_field (s : State) (i j : LoxInstance)
      (attr attr' : string) (v : Value) :
  field_of (with_field s i attr v) j attr'
  = if decide (inst_id j = inst_id i)
    then if decide (attr' = attr)
         then (fun _ => v) <$> objects s !! inst_id i
         else field_of s j attr'
    else field_of s j attr'.
Proof.
  unfold field_of, with_field. cbn [objects].
  destruct (decide (inst_id j = inst_id i)) as [E | N].
  - rewrite E, list_lookup_alter_eq.
    destruct (objects s !! inst_id i) as [d |]; cbn; [|
      destruct (decide (attr' = attr)); reflexivity].
    destruct (decide (attr' = attr)) as [-> | Na].
    + apply lookup_insert_eq.
    + apply lookup_insert_ne. congruence.
  - rewrite list_lookup_alter_ne by congruence. reflexivity.
Qed.

(** X9.  Writing an attribute of an instance and reading it back, under
    a name that is not the host's (one that does not begin with an
    underscore).  When the object expression yields an instance and the
    value expression a value [v], the assignment [obj.attr = e] yields
    [v]; reading [attr] of that instance afterwards yields [v], even when
    the class has a method of that name; and every other entry of the
    dictionary of this and of any other instance, the slot of the class
    included, is as before. *)
Theorem attribute_write_read (n : nat) (obj e : Expr) (attr : string)
        (ctx : Ctx) (s s1 s2 : State) (i : LoxInstance) (v : Value) :
  host_name attr = false ->
  eval_expr n obj ctx s = (Ok (VInstance i), s1) ->
  eval_expr n e ctx s1 = (Ok v, s2) ->
  (inst_id i < length (objects s2))%nat ->
  eval_expr (S n) (Setattr obj attr e) ctx s
  = (Ok v, with_field s2 i attr v) /\
  getattr (VInstance i) attr (with_field s2 i attr v)
  = (Ok v, with_field s2 i attr v) /\
  (forall j attr',
     inst_id j <> inst_id i \/ attr' <> attr ->
     field_of (with_field s2 i attr v) j attr' = field_of s2 j attr').
Proof.
  intros Hh Hobj He Hlen. split; [|split].
  - cbn [eval_expr]. unfold bind at 1. rewrite Hobj.
    unfold bind at 1. rewrite He, Hh. reflexivity.
  - apply getattr_field; [exact Hh|]. rewrite field_of_with_field.
    rewrite !decide_True by reflexivity.
    destruct (lookup_lt_is_Some_2 (objects s2) (inst_id i) Hlen) as [d Hd].
    rewrite Hd. reflexivity.
  - intros j attr' H. rewrite field_of_with_field.
    destruct (decide (inst_id j = inst_id i)) as [E | N]; [|reflexivity].
    destruct (decide (attr' = attr)) as [Ea | Na]; [|reflexivity].
    destruct H; contradiction.
Qed.

Lemma attribute_write_read_witness :
  eval_expr 2 (Setattr (Var "p") "init" (Literal (LStr "v"))) root
            one_instance
  = (Ok (VStr "v"), with_field one_instance the_instance "init" (VStr "v"))
  /\
  getattr (VInstance the_instance) "init"
          (with_field one_instance the_instance "init" (VStr "v"))
  = (Ok (VStr "v"), with_field one_instance the_instance "init" (VStr "v")).
Proof.
  destruct (attribute_write_read
              1 (Var "p") (Literal (LStr "v")) "init" root
              one_instance one_instance one_instance the_instance
              (VStr "v")) as [H1 [H2 _]].
  - reflexivity.
  - reflexivity.
  - reflexivity.
  - simpl. lia.
  - split; [exact H1 | exact H2].
Defined.




(** X11.  Reading [init] of an instance gives a wrapper, rendered as a
    native function, around the initializer of its class.  Calling the
    wrapper with a number of arguments other than the initializer's
    parameter count fails with an arity error that reports that count, and
    a call that completes yields the instance itself. *)
Theorem init_through_attribute (i : LoxInstance) (m : LoxFunction) :
  (forall s,
     field_of s i "init" = None ->
     get_method (inst_class i) "init" = Ok m ->
     getattr (VInstance i) "init" s
     = (Ok (VInitWrapper (serial s) i m),
        {| frames := frames s; objects := objects s;
           serial := S (serial s); output := output s |}) /\
     show (VInitWrapper (serial s) i m) = "<native fn>") /\
  (forall ev id args s,
     length args <> length (fn_params m) ->
     fst (call ev (VInitWrapper id i m) args s)
     = Raise (LoxError (arity_message (length (fn_params m))
                                      (length args)))) /\
  (forall ev id args s v s',
     call ev (VInitWrapper id i m) args s = (Ok v, s') ->
     v = VInstance i).
Proof.
  split; [|split].
  - intros s Hf Hm. split; [|reflexivity].
    rewrite (getattr_method i "init" s eq_refl Hf).
    unfold LoxInstance_getattr, bind, lift. rewrite Hm. reflexivity.
  - intros ev id args s Hlen. apply Nat.eqb_neq in Hlen.
    cbn [call]. unfold init_wrapper, bind_this.
    cbv [bind push ret]. unfold LoxFunction_call.
    cbn [fn_params]. rewrite Hlen. reflexivity.
  - intros ev id args s v s'. cbn [call]. unfold init_wrapper.
    unfold bind at 1.
    destruct (bind_this m (VInstance i) s) as [[b | e] s0]; [|discriminate].
    unfold bind.
    destruct (LoxFunction_call ev b args s0) as [[x | e] s1];
      [|discriminate].
    intros [= <- _]. reflexivity.
Qed.

Lemma init_through_attribute_witness :
  getattr (VInstance the_instance) "init" one_instance
  = (Ok (VInitWrapper 0 the_instance init_P),
     {| frames := frames one_instance; objects := objects one_instance;
        serial := 1; output := [] |}) /\
  fst (call (eval_stmt 3) (VInitWrapper 0 the_instance init_P) []
            one_instance)
  = Raise (LoxError "Expected 1 arguments but got 0.").
Proof.
  split.
  - apply (proj1 (init_through_attribute the_instance init_P));
      reflexivity.
  - apply (proj1 (proj2 (init_through_attribute the_instance init_P))
                 (eval_stmt 3) 0%nat [] one_instance).
    simpl. lia.
Defined.

(** X12.  Reading an attribute whose name is not the host's (it does not
    begin with an underscore) and that is neither a field of the instance
    nor a method of its class or of a class it inherits from fails with
    the Lox error "Undefined method 'attr'.", in the store the object
    expression left. *)
Theorem missing_attribute (n : nat) (obj : Expr) (attr : string)
        (ctx : Ctx) (s s1 : State) (i : LoxInstance) :
  host_name attr = false ->
  eval_expr n obj ctx s = (Ok (VInstance i), s1) ->
  field_of s1 i attr = None ->
  defines (inst_class i) attr = false ->
  eval_expr (S n) (Getattr obj attr) ctx s
  = (Raise (LoxError ("Undefined method '" ++ attr ++ "'.")), s1).
Proof.
  intros Hh Hobj Hf Hd. cbn [eval_expr]. unfold bind at 1. rewrite Hobj.
  rewrite (getattr_method i attr s1 Hh Hf).
  unfold LoxInstance_getattr, bind, lift.
  rewrite (get_method_undefined attr (inst_class i) Hd). reflexivity.
Qed.

Lemma missing_attribute_witness :
  eval_expr 2 (Getattr (Var "p") "y") root one_instance
  = (Raise (LoxError "Undefined method 'y'."), one_instance).
Proof.
  apply (missing_attribute 1 (Var "p") "y" root one_instance one_instance
                           the_instance); reflexivity.
Defined.

(** ** Class declarations *)

Lemma method_table_lookup (ctx : Ctx) (name : string) (defs : list Stmt) :
  forall acc ms,
    method_table defs ctx acc = Ok ms ->
    ms !! name
    = match last_method name defs with
      | Some (ps, b) =>
        Some {| fn_name := name; fn_params := ps; fn_body := b;
                fn_ctx := ctx |}
      | None => acc !! name
      end.
Proof.
  induction defs as [| d defs IH]; intros acc ms; cbn [method_table].
  - intros [= <-]. reflexivity.
  - destruct d as [| | | | | | | n ps b |]; try discriminate.
    intros H. rewrite (IH _ _ H). cbn [last_method].
    destruct (last_method name defs) as [[ps' b'] |]; [reflexivity|].
    destruct (String.eqb n name) eqn:E.
    + apply String.eqb_eq in E. subst n. apply lookup_insert_eq.
    + apply String.eqb_neq in E. apply lookup_insert_ne. exact E.
Qed.

Lemma method_table_functions (ctx : Ctx) (defs : list Stmt) :
  forall acc,
    Forall (fun d => is_Function (NStmt d) = true) defs ->
    exists ms, method_table defs ctx acc = Ok ms.
Proof.
  induction defs as [| d defs IH]; intros acc H; cbn [method_table].
  - eexists. reflexivity.
  - inversion H as [| ? ? Hd Hrest]; subst.
    destruct d; try discriminate Hd. apply IH. exact Hrest.
Qed.

(** X13.  A class declaration without superclass whose body consists of
    method declarations defines the class in the current scope; looking a
    name up in its method table gives the last declaration of that name in
    the body, closed over the scope of the declaration, and nothing for a
    name that is not declared. *)
Theorem class_method_table (n : nat) (cname : string) (defs : list Stmt)
        (ctx : Ctx) (s : State) :
  Forall (fun d => is_Function (NStmt d) = true) defs ->
  exists ms,
    eval_stmt (S n) (Class cname defs None) ctx s
    = var_def ctx cname (VClass (mkLoxClass cname ms None)) s /\
    forall name,
      ms !! name
      = match last_method name defs with
        | Some (ps, b) =>
          Some {| fn_name := name; fn_params := ps; fn_body := b;
                  fn_ctx := ctx |}
        | None => None
        end.
Proof.
  intros H. destruct (method_table_functions ctx defs ∅ H) as [ms Hms].
  exists ms. split.
  - cbn [eval_stmt]. cbv [bind ret lift]. rewrite Hms. reflexivity.
  - intros name. rewrite (method_table_lookup ctx name defs ∅ ms Hms).
    destruct (last_method name defs) as [[ps b] |]; [reflexivity|].
    apply lookup_empty.
Qed.

Lemma class_method_table_witness :
  exists ms,
    eval_stmt 1 (Class "A"
                   [Function "f" [] (Block []);
                    Function "f" ["x"] (Block [])] None) root initial
    = var_def root "A" (VClass (mkLoxClass "A" ms None)) initial /\
    ms !! "f" = Some {| fn_name := "f"; fn_params := ["x"];
                        fn_body := Block []; fn_ctx := root |}.
Proof.
  destruct (class_method_table
              0 "A" [Function "f" [] (Block []);
                     Function "f" ["x"] (Block [])] root initial)
    as [ms [H1 H2]].
  - repeat constructor.
  - exists ms. split; [exact H1 | exact (H2 "f")].
Defined.

(** ** Loops *)

(** X14.  When a [while] loop completes, the last thing it did was to
    evaluate its condition to a falsy value: the store it ends in is the
    store that evaluation left. *)
Theorem while_ends_on_falsy (fuel : nat) (cond : Expr) (body : Stmt)
        (ctx : Ctx) :
  forall s s',
    eval_stmt fuel (While cond body) ctx s = (Ok tt, s') ->
    exists n s0 v,
      eval_expr n cond ctx s0 = (Ok v, s') /\ truthy v = false.
Proof.
  induction fuel as [| n IH]; intros s s'; [discriminate|].
  cbn [eval_stmt]. unfold bind at 1.
  destruct (eval_expr n cond ctx s) as [[v | e] s1] eqn:Hc;
    [|discriminate].
  destruct (truthy v) eqn:Hv; cbn [negb].
  - unfold bind.
    destruct (eval_stmt n body ctx s1) as [[[] | e] s2]; [|discriminate].
    apply IH.
  - intros [= <-]. exists n, s, v. split; [exact Hc | exact Hv].
Qed.

Lemma while_ends_on_falsy_witness :
  exists n s0 v,
    eval_expr n (Literal LNil) root s0 = (Ok v, initial) /\
    truthy v = false.
Proof.
  apply (while_ends_on_falsy 2 (Literal LNil) (Block []) root
                             initial initial).
  reflexivity.
Defined.



(** ** String literals *)

Lemma skip_app (n : nat) (s t : string) :
  String.length s = n -> skip n (s ++ t) = t.
Proof.
  revert n. induction s as [| c s IH]; intros n Hn; cbn in Hn; subst n;
    [reflexivity|].
  change (String c s ++ t)%string with (String c (s ++ t)).
  cbn [skip]. apply IH. reflexivity.
Qed.

Lemma continuations_app (s : string) (c : ascii) (t : string) :
  continuation c = false -> continuations (s ++ String c t) = false.
Proof.
  intros Hc. induction s as [| a s IH].
  - change (EmptyString ++ String c t)%string with (String c t).
    cbn [continuations]. rewrite Hc. reflexivity.
  - change (String a s ++ String c t)%string
      with (String a (s ++ String c t)).
    cbn [continuations]. rewrite IH. apply andb_false_r.
Qed.

Lemma drop_last_app (s : string) (c : ascii) (t : string) :
  continuation c = false -> continuations t = true ->
  drop_last (s ++ String c t) = s.
Proof.
  intros Hc Ht. induction s as [| a s IH].
  - change (EmptyString ++ String c t)%string with (String c t).
    cbn [drop_last]. rewrite Ht. reflexivity.
  - change (String a s ++ String c t)%string
      with (String a (s ++ String c t)).
    cbn [drop_last]. rewrite (continuations_app s c t Hc), IH.
    reflexivity.
Qed.

(** X16.  The transformer reads a string token by dropping its first and
    its last character, whatever characters they are; so the literal it
    builds from the quoted rendering [show_repr] of a string evaluates to
    that string again, and leaves the store as it is. *)
Theorem string_literal_round_trip (text : string) :
  (forall opening closing : string,
      character opening = true -> character closing = true ->
      STRING (opening ++ text ++ closing) = Literal (LStr text)) /\
  (forall (n : nat) (ctx : Ctx) (s : State),
      eval_expr (S n) (STRING (show_repr (VStr text))) ctx s
      = (Ok (VStr text), s)).
Proof.
  assert (H : forall opening closing : string,
             character opening = true -> character closing = true ->
             STRING (opening ++ text ++ closing) = Literal (LStr text)).
  { intros [| lead rest] [| c t]; try discriminate.
    unfold character. intros Ho Hc.
    apply andb_prop in Ho as [Ho _]. apply andb_prop in Ho as [_ Ho].
    apply Nat.eqb_eq in Ho.
    apply andb_prop in Hc as [Hc Ht]. apply andb_prop in Hc as [Hc _].
    apply negb_true_iff in Hc.
    unfold STRING.
    change (String lead rest ++ text ++ String c t)%string
      with (String lead (rest ++ (text ++ String c t))).
    cbn [drop_first]. rewrite (skip_app _ rest _ Ho).
    rewrite (drop_last_app text c t Hc Ht). reflexivity. }
  split; [exact H|].
  intros n ctx s.
  change (show_repr (VStr text))
    with (String dquote EmptyString ++ text ++ String dquote EmptyString)%string.
  rewrite H by reflexivity. reflexivity.
Qed.

Lemma string_literal_round_trip_witness :
  STRING ("«" ++ "olá" ++ "»") = Literal (LStr "olá").
Proof.
  apply (proj1 (string_literal_round_trip "olá") "«" "»"); reflexivity.
Defined.

(** ** Logical operators *)

(** X17.  [and] and [or] evaluate their left operand first.  When it
    decides the result ([and] on a falsy value, [or] on a truthy one) that
    value is the result and the right operand is not evaluated, so that
    nothing it would print, assign or raise happens.  When both operands
    are evaluated the result is one of the two operand values, truthy
    exactly when the conjunction, respectively the disjunction, of their
    truth values is. *)
Theorem logical_operators (n : nat) (l r : Expr) (ctx : Ctx)
        (s s1 : State) (vl : Value) :
  eval_expr n l ctx s = (Ok vl, s1) ->
  (truthy vl = false ->
   eval_expr (S n) (And l r) ctx s = (Ok vl, s1)) /\
  (truthy vl = true ->
   eval_expr (S n) (Or l r) ctx s = (Ok vl, s1)) /\
  (forall (vr : Value) (s2 : State),
      eval_expr n r ctx s1 = (Ok vr, s2) ->
      exists (va vo : Value) (sa so : State),
        eval_expr (S n) (And l r) ctx s = (Ok va, sa) /\
        eval_expr (S n) (Or l r) ctx s = (Ok vo, so) /\
        (va = vl \/ va = vr) /\ (vo = vl \/ vo = vr) /\
        truthy va = truthy vl && truthy vr /\
        truthy vo = truthy vl || truthy vr).
Proof.
  intros Hl. cbn [eval_expr]. unfold bind. rewrite Hl.
  split; [|split].
  - destruct vl as [| [] | | | | | | | |]; try discriminate; reflexivity.
  - destruct vl as [| [] | | | | | | | |]; try discriminate; reflexivity.
  - intros vr s2 Hr.
    destruct vl as [| [] | | | | | | | |]; cbn [truthy andb orb];
      rewrite ?Hr; unfold ret;
      repeat eexists; auto.
Qed.

Lemma logical_operators_witness :
  eval_expr 3 (And (Literal LNil) (Call (Literal LNil) [])) root initial
  = (Ok VNil, initial).
Proof.
  apply (logical_operators 2 (Literal LNil) (Call (Literal LNil) [])
                           root initial initial VNil);
    reflexivity.
Defined.

(** ** Declarations accepted by the validation hooks *)

Lemma find_reserved_none (params : list string) :
  List.find reserved params = None <->
  (forall p, p ∈ params -> p ∉ reserved_words).
Proof.
  induction params as [| x xs IH]; cbn [List.find].
  - split; [|reflexivity]. intros _ p Hp. inversion Hp.
  - unfold reserved at 1. destruct (bool_decide_reflect (x ∈ reserved_words))
      as [Hx | Hx].
    + split; [discriminate|]. intros H. exfalso.
      exact (H x (list_elem_of_here x xs) Hx).
    + rewrite IH. split.
      * intros H p Hp. apply elem_of_cons in Hp as [-> | Hp];
          [exact Hx | exact (H p Hp)].
      * intros H p Hp. apply H. apply elem_of_cons. right. exact Hp.
Qed.

Lemma first_duplicate_Ok (params : list string) :
  forall seen,
    first_duplicate params seen = Ok tt <->
    NoDup params /\ (forall p, p ∈ params -> p ∉ seen).
Proof.
  induction params as [| x xs IH]; intros seen; cbn [first_duplicate].
  - split; [|reflexivity]. intros _. split; [constructor|].
    intros p Hp. inversion Hp.
  - destruct (bool_decide_reflect (x ∈ seen)) as [Hx | Hx].
    + split; [discriminate|]. intros [_ H]. exfalso.
      exact (H x (list_elem_of_here x xs) Hx).
    + rewrite IH. split.
      * intros [Hnd H]. split.
        -- constructor; [|exact Hnd]. intros Hin.
           apply (H x Hin). apply elem_of_union. left.
           apply elem_of_singleton. reflexivity.
        -- intros p Hp. apply elem_of_cons in Hp as [-> | Hp];
             [exact Hx|]. intros Hs. apply (H p Hp).
           apply elem_of_union. right. exact Hs.
      * intros [Hnd H]. apply NoDup_cons in Hnd as [Hnx Hnd].
        split; [exact Hnd|]. intros p Hp Hs.
        apply elem_of_union in Hs as [Hs | Hs].
        -- apply elem_of_singleton in Hs. subst p. exact (Hnx Hp).
        -- apply (H p); [apply elem_of_cons; right; exact Hp | exact Hs].
Qed.

(** X18.  The hook of a function declaration accepts a parameter list
    exactly when no parameter is a reserved word and no name occurs in it
    twice.  A reserved word is reported before a repeated name, wherever
    the two stand in the list. *)
Theorem function_parameters_accepted (params : list string) :
  (Function_validate_self params = Ok tt <->
   NoDup params /\ (forall p, p ∈ params -> p ∉ reserved_words)) /\
  (forall p, List.find reserved params = Some p ->
             Function_validate_self params
             = Raise (SemanticError "Expect variable name." (Some p))).
Proof.
  unfold Function_validate_self. split.
  - destruct (List.find reserved params) as [p |] eqn:Hf.
    + split; [discriminate|]. intros [_ H]. exfalso.
      apply find_some in Hf as [Hin Hr].
      unfold reserved in Hr. apply bool_decide_eq_true in Hr.
      apply (H p); [apply list_elem_of_In; exact Hin | exact Hr].
    + rewrite first_duplicate_Ok.
      pose proof (proj1 (find_reserved_none params) Hf) as Hr. split.
      * intros [Hnd _]. split; [exact Hnd | exact Hr].
      * intros [Hnd _]. split; [exact Hnd|]. intros p _.
        apply not_elem_of_empty.
  - intros p ->. reflexivity.
Qed.

Lemma function_parameters_accepted_witness :
  Function_validate_self ["a"; "a"; "this"]
  = Raise (SemanticError "Expect variable name." (Some "this")).
Proof.
  apply (proj2 (function_parameters_accepted ["a"; "a"; "this"]) "this").
  reflexivity.
Defined.

Lemma Block_distinct_Ok (stmts : list Stmt) :
  forall seen,
    Block_distinct stmts seen = Ok tt <->
    NoDup (declared stmts) /\ (forall x, x ∈ declared stmts -> x ∉ seen).
Proof.
  induction stmts as [| st rest IH]; intros seen.
  - cbn. split; [|reflexivity]. intros _. split; [constructor|].
    intros x Hx. inversion Hx.
  - destruct st; cbn [Block_distinct declared]; try apply IH.
    destruct (bool_decide_reflect (name ∈ seen)) as [Hx | Hx].
    + split; [discriminate|]. intros [_ H]. exfalso.
      exact (H name (list_elem_of_here _ _) Hx).
    + rewrite IH. split.
      * intros [Hnd H]. split.
        -- constructor; [|exact Hnd]. intros Hin.
           apply (H name Hin). apply elem_of_union. left.
           apply elem_of_singleton. reflexivity.
        -- intros p Hp. apply elem_of_cons in Hp as [-> | Hp];
             [exact Hx|]. intros Hs. apply (H p Hp).
           apply elem_of_union. right. exact Hs.
      * intros [Hnd H]. apply NoDup_cons in Hnd as [Hnx Hnd].
        split; [exact Hnd|]. intros p Hp Hs.
        apply elem_of_union in Hs as [Hs | Hs].
        -- apply elem_of_singleton in Hs. subst p. exact (Hnx Hp).
        -- apply (H p); [apply elem_of_cons; right; exact Hp | exact Hs].
Qed.

Lemma existsb_eqb_elem (x : string) (l : list string) :
  existsb (String.eqb x) l = true <-> x ∈ l.
Proof.
  rewrite existsb_exists. split.
  - intros [y [Hin Hy]]. apply String.eqb_eq in Hy. subst y.
    apply list_elem_of_In. exact Hin.
  - intros H. exists x. split; [apply list_elem_of_In; exact H|].
    apply String.eqb_refl.
Qed.

Lemma Block_params_Ok (params : list string) (stmts : list Stmt) :
  Block_params stmts params = Ok tt <->
  (forall x, x ∈ declared stmts -> x ∉ params).
Proof.
  induction stmts as [| st rest IH].
  - cbn. split; [|reflexivity]. intros _ x Hx. inversion Hx.
  - destruct st; cbn [Block_params declared]; try apply IH.
    destruct (existsb (String.eqb name) params) eqn:E.
    + apply existsb_eqb_elem in E. split; [discriminate|].
      intros H. exfalso. exact (H name (list_elem_of_here _ _) E).
    + rewrite IH. split.
      * intros H x Hx. apply elem_of_cons in Hx as [-> | Hx];
          [|exact (H x Hx)].
        intros Hin. apply existsb_eqb_elem in Hin. congruence.
      * intros H x Hx. apply H. apply elem_of_cons. right. exact Hx.
Qed.

Lemma Block_scan_params (stmts : list Stmt) (ancestors : list Cursor) :
  Block_scan stmts ancestors
  = Block_params stmts
      match List.find (fun p => is_Function (node p)) ancestors with
      | Some p =>
        match node p with
        | NStmt (Function _ params _) => params
        | _ => []
        end
      | None => []
      end.
Proof.
  assert (Hnil : Block_params stmts [] = Ok tt).
  { induction stmts as [| st rest IH]; [reflexivity|].
    destruct st; exact IH. }
  induction ancestors as [| p rest IH]; cbn [Block_scan List.find].
  - symmetry. exact Hnil.
  - destruct (node p) as [| | []] eqn:Hn; cbn [is_Function];
      try exact IH.
    rewrite Hn. reflexivity.
Qed.

(** X19.  The hook of a block accepts it exactly when the block declares
    no variable twice and none of its declarations is named like a
    parameter of the nearest enclosing function, however many blocks and
    statements lie between the two. *)
Theorem block_declarations_accepted (stmts : list Stmt) (c : Cursor) :
  Block_validate_self stmts c = Ok tt <->
  NoDup (declared stmts) /\
  (forall x, x ∈ declared stmts -> x ∉ enclosing_params c).
Proof.
  unfold Block_validate_self, enclosing_params.
  rewrite Block_scan_params.
  destruct (Block_distinct stmts ∅) as [[] | e] eqn:Hd.
  - apply Block_distinct_Ok in Hd as [Hnd _].
    rewrite Block_params_Ok. split.
    + intros H. split; [exact Hnd | exact H].
    + intros [_ H]. exact H.
  - split; [discriminate|]. intros [Hnd _]. exfalso.
    assert (H : Block_distinct stmts ∅ = Ok tt).
    { apply Block_distinct_Ok. split; [exact Hnd|]. intros x _.
      apply not_elem_of_empty. }
    congruence.
Qed.

(** A block inside an [if] inside a function body may not declare a
    variable named like a parameter of the function. *)
Example nested_block_names_parameter :
  validate_self shadowing_block
  = Raise (SemanticError
             "Already a variable with this name in this scope."
             (Some "a")).
Proof. reflexivity. Qed.

(** ** Calls that fail before the body runs *)

(** X20.  A call evaluates the callee and then every argument, left to
    right, before it looks at the callee.  If the callee is not callable
    the call fails with a type error; if it is a function or a bound
    method and the number of arguments differs from the number of
    parameters, it fails with the arity message.  In both cases the store
    is the one the arguments left: their effects have happened and the
    body has not run. *)
Theorem call_errors (n : nat) (func : Expr) (params : list Expr)
        (ctx : Ctx) (s s1 s2 : State) (v : Value) (args : list Value) :
  eval_expr n func ctx s = (Ok v, s1) ->
  eval_each (fun p => eval_expr n p ctx) params s1 = (Ok args, s2) ->
  (callable v = false ->
   eval_expr (S n) (Call func params) ctx s
   = (Raise (TypeError "Objeto não é uma função!"), s2)) /\
  (forall f : LoxFunction,
      (v = VFunction f \/ exists id i, v = VBoundMethod id i f) ->
      length args <> length (fn_params f) ->
      eval_expr (S n) (Call func params) ctx s
      = (Raise (LoxError (arity_message (length (fn_params f))
                                        (length args))), s2)).
Proof.
  intros Hf Ha.
  assert (H : eval_expr (S n) (Call func params) ctx s
              = (if callable v then call (eval_stmt n) v args
                 else raise (TypeError "Objeto não é uma função!")) s2).
  { cbn [eval_expr]. unfold bind. rewrite Hf, Ha. reflexivity. }
  rewrite H. split.
  - intros ->. reflexivity.
  - intros f Hv Hlen.
    apply Nat.eqb_neq in Hlen.
    destruct Hv as [-> | [id [i ->]]]; cbn [callable call];
      unfold LoxFunction_call, LoxBoundMethod_call;
      rewrite Hlen; reflexivity.
Qed.

Lemma call_errors_witness :
  eval_expr 3 (Call (Literal LNil)
                    [Assign "x" (Literal (LBool true))])
            root (snd (var_def root "x" VNil initial))
  = (Raise (TypeError "Objeto não é uma função!"),
     snd (var_def root "x" (VBool true) initial)).
Proof.
  apply (call_errors 2 (Literal LNil)
                     [Assign "x" (Literal (LBool true))] root
                     (snd (var_def root "x" VNil initial))
                     (snd (var_def root "x" VNil initial))
                     (snd (var_def root "x" (VBool true) initial))
                     VNil [VBool true]);
    reflexivity.
Defined.

(** ** Programs *)

(** X21.  A program runs its statements in order in one environment and
    stops at the first that fails: running two lists of statements one
    after the other is running the second in the store the first left,
    and if the first list fails nothing of the second is run. *)
Theorem program_sequencing (fuel : nat) (first second : list Stmt)
        (ctx : Ctx) (s : State) :
  eval_program fuel (MkProgram (first ++ second)%list) ctx s
  = match eval_program fuel (MkProgram first) ctx s with
    | (Ok _, s1) => eval_program fuel (MkProgram second) ctx s1
    | (Raise e, s1) => (Raise e, s1)
    end.
Proof.
  cbn [eval_program]. revert s.
  induction first as [| st rest IH]; intros s; [reflexivity|].
  cbn [app exec_each]. unfold bind.
  destruct (eval_stmt fuel st ctx s) as [[[] | e] s1]; [apply IH|].
  reflexivity.
Qed.

(** ** What evaluation never undoes *)

Section Keeps.

Lemma extends_same (s s' : State) :
  output s' = output s -> objects s' = objects s -> extends s s'.
Proof.
  intros Ho Hb. unfold extends, field_of. rewrite Ho, Hb.
  split; [reflexivity|]. split; [reflexivity|]. intros i attr H. exact H.
Qed.

Lemma extends_refl (s : State) : extends s s.
Proof. apply extends_same; reflexivity. Qed.

Lemma extends_trans (s1 s2 s3 : State) :
  extends s1 s2 -> extends s2 s3 -> extends s1 s3.
Proof.
  intros [Ho [Hl Hf]] [Ho' [Hl' Hf']]. split; [|split].
  - etransitivity; eassumption.
  - etransitivity; eassumption.
  - intros i attr H. apply Hf', Hf, H.
Qed.

Lemma keeps_ret {A} (a : A) : keeps (ret a).
Proof. intros s. apply extends_refl. Qed.

Lemma keeps_raise {A} (e : Exn) : keeps (@raise A e).
Proof. intros s. apply extends_refl. Qed.

Lemma keeps_lift {A} (r : Result A) : keeps (lift r).
Proof. intros s. apply extends_refl. Qed.

Lemma keeps_bind {A B} (m : M A) (k : A -> M B) :
  keeps m -> (forall a, keeps (k a)) -> keeps (bind m k).
Proof.
  intros Hm Hk s. unfold bind. pose proof (Hm s) as H1.
  destruct (m s) as [[a | e] s1]; cbn [snd] in *; [|exact H1].
  apply (extends_trans _ _ _ H1). apply Hk.
Qed.

Lemma keeps_try {A} (body : M A) (catches : Exn -> bool)
      (handler : Exn -> M A) :
  keeps body -> (forall e, keeps (handler e)) ->
  keeps (try_except body catches handler).
Proof.
  intros Hb Hh s. unfold try_except. pose proof (Hb s) as H1.
  destruct (body s) as [[a | e] s1]; cbn [snd] in *; [exact H1|].
  destruct (catches e); [|exact H1].
  apply (extends_trans _ _ _ H1). apply Hh.
Qed.

Lemma keeps_push (ctx : Ctx) (env : gmap string Value) :
  keeps (push ctx env).
Proof. intros s. apply extends_same; reflexivity. Qed.

Lemma keeps_lookup (ctx : Ctx) (name : string) : keeps (lookup ctx name).
Proof.
  intros s. unfold lookup. destruct (find _ _ _); apply extends_refl.
Qed.

Lemma keeps_var_def (ctx : Ctx) (name : string) (v : Value) :
  keeps (var_def ctx name v).
Proof.
  intros s. destruct ctx; [apply extends_refl|].
  apply extends_same; reflexivity.
Qed.

Lemma keeps_assign (ctx : Ctx) (name : string) (v : Value) :
  keeps (assign ctx name v).
Proof.
  intros s. unfold assign. destruct (owner _ _ _); [|apply extends_refl].
  apply extends_same; reflexivity.
Qed.

Lemma keeps_fresh_serial : keeps fresh_serial.
Proof. intros s. apply extends_same; reflexivity. Qed.

Lemma keeps_get_field (i : LoxInstance) (attr : string) :
  keeps (get_field i attr).
Proof. intros s. apply extends_refl. Qed.

Lemma keeps_print (v : Value) : keeps (print v).
Proof.
  intros s. split; [|split].
  - cbn. apply prefix_app_r. reflexivity.
  - reflexivity.
  - intros i attr H. exact H.
Qed.

Lemma keeps_new_instance (c : LoxClass) : keeps (new_instance c).
Proof.
  intros s. split; [|split].
  - reflexivity.
  - cbn. rewrite length_app. apply Nat.le_add_r.
  - intros i attr. unfold field_of. cbn [new_instance snd objects].
    intros [v H]. exists v.
    destruct (objects s !! inst_id i) as [d |] eqn:E; [|discriminate H].
    rewrite (lookup_app_l_Some _ _ _ _ E). exact H.
Qed.

Lemma keeps_set_field (i : LoxInstance) (attr : string) (v : Value) :
  keeps (set_field i attr v).
Proof.
  intros s. split; [|split].
  - reflexivity.
  - cbn. rewrite length_alter. reflexivity.
  - intros j attr' H.
    change (snd (set_field i attr v s)) with (with_field s i attr v).
    rewrite field_of_with_field.
    destruct (decide (inst_id j = inst_id i)) as [E | N]; [|exact H].
    destruct (decide (attr' = attr)) as [Ea | Na]; [|exact H].
    unfold field_of in H. rewrite E in H.
    destruct (objects s !! inst_id i); [eexists; reflexivity|].
    destruct H as [x H]. discriminate H.
Qed.

Lemma keeps_bind_this (f : LoxFunction) (obj : Value) :
  keeps (bind_this f obj).
Proof.
  unfold bind_this. apply keeps_bind; [apply keeps_push|].
  intros c. apply keeps_ret.
Qed.

Lemma keeps_getattr (obj : Value) (attr : string) :
  keeps (getattr obj attr).
Proof.
  destruct obj; cbn [getattr]; try apply keeps_raise.
  destruct (host_name attr); [apply keeps_raise|].
  apply keeps_bind; [apply keeps_get_field|].
  intros [x |]; [apply keeps_ret|].
  unfold LoxInstance_getattr.
  apply keeps_bind; [apply keeps_lift|]. intros m.
  destruct (String.eqb attr "init").
  - apply keeps_bind; [apply keeps_fresh_serial|]. intros n.
    apply keeps_ret.
  - apply keeps_bind; [apply keeps_fresh_serial|]. intros n.
    apply keeps_bind; [apply keeps_push|]. intros c. apply keeps_ret.
Qed.

Lemma keeps_super_handler (e : Exn) : keeps (super_handler e).
Proof.
  destruct e; cbn [super_handler]; try apply keeps_raise.
  destruct (contains "super" _); [apply keeps_raise|].
  destruct (contains "this" _); apply keeps_raise.
Qed.

Section KeepsCallables.
Variable ev : Stmt -> Ctx -> M unit.
Hypothesis keeps_ev : forall body ctx, keeps (ev body ctx).

Lemma keeps_run_body (body : Stmt) (ctx : Ctx) :
  keeps (run_body ev body ctx).
Proof.
  unfold run_body. apply keeps_try.
  - apply keeps_bind; [apply keeps_ev|]. intros _. apply keeps_ret.
  - intros e. destruct e; first [apply keeps_ret | apply keeps_raise].
Qed.

Lemma keeps_LoxFunction_call (f : LoxFunction) (args : list Value) :
  keeps (LoxFunction_call ev f args).
Proof.
  unfold LoxFunction_call. destruct (negb _); [apply keeps_raise|].
  apply keeps_bind; [apply keeps_push|]. intros c. apply keeps_run_body.
Qed.

Lemma keeps_call (func : Value) (args : list Value) :
  keeps (call ev func args).
Proof.
  destruct func; cbn [call]; try apply keeps_raise.
  - apply keeps_LoxFunction_call.
  - unfold LoxClass_call.
    apply keeps_bind; [apply keeps_new_instance|]. intros i.
    apply keeps_bind; [|intros _; apply keeps_ret].
    apply keeps_try.
    + unfold init_attempt.
      apply keeps_bind; [apply keeps_lift|]. intros m.
      apply keeps_bind; [apply keeps_bind_this|]. intros b.
      apply keeps_bind; [apply keeps_LoxFunction_call|]. intros _.
      apply keeps_ret.
    + intros e. destruct args; [apply keeps_ret | apply keeps_raise].
  - unfold LoxBoundMethod_call. destruct (negb _); [apply keeps_raise|].
    apply keeps_bind; [apply keeps_push|]. intros c.
    apply keeps_run_body.
  - unfold init_wrapper.
    apply keeps_bind; [apply keeps_bind_this|]. intros b.
    apply keeps_bind; [apply keeps_LoxFunction_call|]. intros _.
    apply keeps_ret.
Qed.

End KeepsCallables.

Lemma keeps_eval_each (f : Expr -> M Value) (ps : list Expr) :
  (forall x, keeps (f x)) -> keeps (eval_each f ps).
Proof.
  intros Hf. induction ps as [| x ps IH]; cbn [eval_each];
    [apply keeps_ret|].
  apply keeps_bind; [apply Hf|]. intros v.
  apply keeps_bind; [exact IH|]. intros vs. apply keeps_ret.
Qed.

Lemma keeps_exec_each (f : Stmt -> M unit) (ss : list Stmt) :
  (forall x, keeps (f x)) -> keeps (exec_each f ss).
Proof.
  intros Hf. induction ss as [| x ss IH]; cbn [exec_each];
    [apply keeps_ret|].
  apply keeps_bind; [apply Hf|]. intros _. exact IH.
Qed.

Lemma keeps_eval (fuel : nat) :
  (forall e ctx, keeps (eval_expr fuel e ctx)) /\
  (forall st ctx, keeps (eval_stmt fuel st ctx)).
Proof.
  induction fuel as [| n [IHe IHs]].
  - split; intros; apply keeps_raise.
  - split.
    + intros e ctx. destruct e; cbn [eval_expr].
      * apply keeps_bind; [apply IHe|]. intros l.
        apply keeps_bind; [apply IHe|]. intros r. apply keeps_lift.
      * apply keeps_try; [apply keeps_lookup|].
        intros e. apply keeps_raise.
      * apply keeps_ret.
      * apply keeps_bind; [apply IHe|]. intros l.
        destruct l as [| [|] | | | | | | | |];
          first [apply keeps_ret | apply IHe].
      * apply keeps_bind; [apply IHe|]. intros l.
        destruct l as [| [|] | | | | | | | |];
          first [apply keeps_ret | apply IHe].
      * apply keeps_bind; [apply IHe|]. intros v. apply keeps_lift.
      * apply keeps_bind; [apply IHe|]. intros f.
        apply keeps_bind.
        { apply keeps_eval_each. intros x. apply IHe. }
        intros args. destruct (callable f).
        -- apply keeps_call. exact IHs.
        -- apply keeps_raise.
      * apply keeps_try; [apply keeps_lookup|].
        intros e. apply keeps_raise.
      * apply keeps_try; [|apply keeps_super_handler].
        apply keeps_bind; [apply keeps_lookup|]. intros sup.
        apply keeps_bind; [apply keeps_lookup|]. intros this.
        destruct sup; try apply keeps_raise.
        apply keeps_bind; [apply keeps_lift|]. intros m.
        apply keeps_bind; [apply keeps_bind_this|]. intros b.
        apply keeps_ret.
      * apply keeps_bind; [apply IHe|]. intros v.
        apply keeps_bind; [apply keeps_assign|]. intros _.
        apply keeps_ret.
      * apply keeps_bind; [apply IHe|]. intros v. apply keeps_getattr.
      * apply keeps_bind; [apply IHe|]. intros obj.
        apply keeps_bind; [apply IHe|]. intros val.
        destruct obj; try apply keeps_raise.
        destruct (host_name attr); [apply keeps_raise|].
        apply keeps_bind; [apply keeps_set_field|]. intros _.
        apply keeps_ret.
    + intros st ctx. destruct st; cbn [eval_stmt].
      * apply keeps_bind; [apply IHe|]. intros _. apply keeps_ret.
      * apply keeps_bind; [apply IHe|]. intros v. apply keeps_print.
      * apply keeps_bind.
        { destruct value; [apply IHe | apply keeps_ret]. }
        intros v. apply keeps_raise.
      * apply keeps_bind; [apply IHe|]. intros v. apply keeps_var_def.
      * apply keeps_bind; [apply IHe|]. intros c.
        destruct (truthy c); [apply IHs|].
        destruct else_stmt; [apply IHs | apply keeps_ret].
      * apply keeps_bind; [apply IHe|]. intros c.
        destruct (negb (truthy c)); [apply keeps_ret|].
        apply keeps_bind; [apply IHs|]. intros _. apply IHs.
      * apply keeps_bind; [apply keeps_push|]. intros c.
        apply keeps_exec_each. intros x. apply IHs.
      * apply keeps_var_def.
      * apply keeps_bind.
        { destruct superclass as [sname |]; [|apply keeps_ret].
          apply keeps_bind; [apply keeps_lookup|]. intros v.
          destruct v; first [apply keeps_ret | apply keeps_raise]. }
        intros sup. apply keeps_bind.
        { destruct sup; [apply keeps_push | apply keeps_ret]. }
        intros mctx. apply keeps_bind; [apply keeps_lift|].
        intros ms. apply keeps_var_def.
Qed.

End Keeps.

(** X22.  As long as a program reads and writes attributes on instances
    and under names that are not the host's, so that its evaluation does
    not stop where the host's attribute protocol takes over, evaluation
    only ever adds to what has been printed and to what instances hold.
    However an expression, a statement or a program ends, normally or with
    an error, the lines printed before it are still the first lines of the
    output, no instance has gone, and every entry the dictionary of an
    instance had it still has. *)
Theorem evaluation_only_adds (fuel : nat) :
  (forall e ctx s,
      beyond (fst (eval_expr fuel e ctx s)) = false ->
      extends s (snd (eval_expr fuel e ctx s))) /\
  (forall st ctx s,
      beyond (fst (eval_stmt fuel st ctx s)) = false ->
      extends s (snd (eval_stmt fuel st ctx s))) /\
  (forall p ctx s,
      beyond (fst (eval_program fuel p ctx s)) = false ->
      extends s (snd (eval_program fuel p ctx s))).
Proof.
  destruct (keeps_eval fuel) as [He Hs]. split; [|split].
  - intros e ctx s _. apply He.
  - intros st ctx s _. apply Hs.
  - intros [stmts] ctx s _. cbn [eval_program].
    apply keeps_exec_each. intros x. apply Hs.
Qed.

Lemma evaluation_only_adds_witness :
  extends one_instance
    (snd (eval_program 4
            (MkProgram [ExprStmt (Setattr (Var "p") "x" (Literal LNil));
                        Print (Getattr (Var "p") "x");
                        Print (Getattr (Var "p") "y")])
            root one_instance)).
Proof.
  apply (proj2 (proj2 (evaluation_only_adds 4))). reflexivity.
Defined.

(** ** Parameters and arguments *)

Lemma foldl_insert_other (pairs : list (string * Value)) (x : string) :
  forall m : gmap string Value,
    x ∉ pairs.*1 ->
    foldl (fun m p => <[fst p := snd p]> m) m pairs !! x = m !! x.
Proof.
  induction pairs as [| [k v] rest IH]; intros m Hx; [reflexivity|].
  cbn [foldl fst snd]. cbn in Hx. apply not_elem_of_cons in Hx as [Hk Hr].
  rewrite (IH _ Hr). apply lookup_insert_ne. congruence.
Qed.

Lemma foldl_insert_found (pairs : list (string * Value)) (x : string)
      (a : Value) :
  forall m : gmap string Value,
    NoDup pairs.*1 -> (x, a) ∈ pairs ->
    foldl (fun m p => <[fst p := snd p]> m) m pairs !! x = Some a.
Proof.
  induction pairs as [| [k v] rest IH]; intros m Hnd Hin;
    [inversion Hin|].
  cbn [foldl fst snd]. cbn in Hnd. apply NoDup_cons in Hnd as [Hk Hnd].
  apply elem_of_cons in Hin as [E | Hin].
  - injection E as -> ->. rewrite (foldl_insert_other _ _ _ Hk).
    apply lookup_insert_eq.
  - apply IH; assumption.
Qed.

Lemma zip_positions (params : list string) (args : list Value) (i : nat)
      (p : string) (a : Value) :
  params !! i = Some p -> args !! i = Some a -> (p, a) ∈ zip params args.
Proof.
  intros Hp Ha. apply (list_elem_of_lookup_2 _ i).
  rewrite lookup_zip_with, Hp. cbn. rewrite Ha. reflexivity.
Qed.

Lemma NoDup_zip_fst (params : list string) (args : list Value) :
  NoDup params -> NoDup (zip params args).*1.
Proof.
  revert args. induction params as [| p ps IH]; intros args Hnd;
    [constructor|].
  destruct args as [| a args]; [constructor|].
  apply NoDup_cons in Hnd as [Hp Hnd]. cbn. constructor; [|apply IH, Hnd].
  intros Hin. apply Hp.
  apply list_elem_of_fmap in Hin as [[q b] [-> Hin]].
  apply (elem_of_zip_l _ _ _ _ Hin).
Qed.

Lemma zip_fst_subset (params : list string) (args : list Value)
      (x : string) :
  x ∉ params -> x ∉ (zip params args).*1.
Proof.
  intros Hx Hin. apply Hx.
  apply list_elem_of_fmap in Hin as [[q b] [-> Hin]].
  apply (elem_of_zip_l _ _ _ _ Hin).
Qed.

(** X23.  Calling a function, or a bound method, with as many arguments
    as it has parameters runs its body in a new innermost scope of the
    environment the function was declared in, not of the caller's.  When
    the parameter names are distinct that scope binds each parameter to the
    argument at its position and nothing else, except [this], which the
    scope of a bound method binds to the instance unless a parameter has
    that name. *)
Theorem parameters_bound_to_arguments (ev : Stmt -> Ctx -> M unit)
        (f : LoxFunction) (args : list Value) (s : State) :
  length args = length (fn_params f) ->
  NoDup (fn_params f) ->
  exists env : gmap string Value,
    let s' := {| frames := frames s ++ [env]; objects := objects s;
                 serial := serial s; output := output s |} in
    LoxFunction_call ev f args s
    = run_body ev (fn_body f) (length (frames s) :: fn_ctx f) s' /\
    (forall i p a, fn_params f !! i = Some p -> args !! i = Some a ->
                   env !! p = Some a) /\
    (forall x, x ∉ fn_params f -> env !! x = None) /\
    forall (id : nat) (this : LoxInstance),
    exists env_m : gmap string Value,
      let s_m := {| frames := frames s ++ [env_m]; objects := objects s;
                    serial := serial s; output := output s |} in
      call ev (VBoundMethod id this f) args s
      = run_body ev (fn_body f) (length (frames s) :: fn_ctx f) s_m /\
      (forall i p a, fn_params f !! i = Some p -> args !! i = Some a ->
                     env_m !! p = Some a) /\
      (forall x, x ∉ fn_params f ->
                 env_m !! x
                 = if decide (x = "this") then Some (VInstance this)
                   else None).
Proof.
  intros Hlen Hnd.
  exists (dict_of (zip (fn_params f) args)). cbv zeta.
  split; [|split; [|split]].
  - unfold LoxFunction_call. rewrite Hlen, Nat.eqb_refl. reflexivity.
  - intros i p a Hp Ha. unfold dict_of.
    apply foldl_insert_found;
      [apply NoDup_zip_fst, Hnd | exact (zip_positions _ _ i p a Hp Ha)].
  - intros x Hx. unfold dict_of.
    rewrite foldl_insert_other by (apply zip_fst_subset, Hx).
    apply lookup_empty.
  - intros id this.
    exists (foldl (fun m p => <[fst p := snd p]> m)
                  {["this" := VInstance this]}
                  (zip (fn_params f) args)).
    split; [|split].
    + cbn [call]. unfold LoxBoundMethod_call.
      rewrite Hlen, Nat.eqb_refl. reflexivity.
    + intros i p a Hp Ha.
      apply foldl_insert_found;
        [apply NoDup_zip_fst, Hnd | exact (zip_positions _ _ i p a Hp Ha)].
    + intros x Hx.
      rewrite foldl_insert_other by (apply zip_fst_subset, Hx).
      destruct (decide (x = "this")) as [-> | N].
      * apply lookup_singleton_eq.
      * apply lookup_singleton_ne. congruence.
Qed.

Lemma parameters_bound_to_arguments_witness :
  exists env : gmap string Value,
    LoxFunction_call (eval_stmt 3)
      {| fn_name := "f"; fn_params := ["a"; "b"];
         fn_body := Block []; fn_ctx := root |}
      [VNil; VBool true] initial
    = run_body (eval_stmt 3) (Block []) [1%nat; 0%nat]
        {| frames := [∅; env]; objects := []; serial := 0; output := [] |}
    /\ env !! "b" = Some (VBool true).
Proof.
  destruct (parameters_bound_to_arguments
              (eval_stmt 3)
              {| fn_name := "f"; fn_params := ["a"; "b"];
                 fn_body := Block []; fn_ctx := root |}
              [VNil; VBool true] initial)
    as [env [Hcall [Hpos _]]].
  - reflexivity.
  - apply NoDup_cons. split; [|apply NoDup_singleton].
    intros H. apply list_elem_of_singleton in H. discriminate H.
  - exists env. split; [exact Hcall|].
    apply (Hpos 1%nat "b" (VBool true)); reflexivity.
Defined.
